(** * maps-info: normalisation of fetched map records

    A shallow embedding of [src/structs.py] and [src/update.py], and the
    properties of the fetch / normalise / write pipeline stated over it.

    Python objects are embedded as follows.
    - JSON values: the inductive [value]; a [dict] is an association list in
      insertion order (the order [json.dumps] later prints), a [str] is a
      [string] holding its UTF-8 bytes.
    - In-place mutation of a record: a state monad over the record's
      contents.  Exceptions: the [Raise] outcome of [result]; the state that
      comes with a [Raise] is the record as the exception left it.
    - The network and the file system: operations of an environment that is
      a parameter of the fetcher and of the writer. *)

From Stdlib Require Import ZArith Ascii String List Bool Lia DecimalString.
From stdpp Require Import base tactics option list.

Import ListNotations.
Set Warnings "-register-all".
Local Open Scope string_scope.
Local Open Scope list_scope.
Local Open Scope Z_scope.

(* ===================================================================== *)
(** * Python values                                                       *)
(* ===================================================================== *)

(** A binary float: not-a-number, an infinity, or the finite number
    [m * 2^e]. *)
Inductive pyfloat : Type :=
| FNan
| FInf (negative : bool)
| FFin (m e : Z).

Inductive value : Type :=
| VNone
| VBool (b : bool)
| VInt (z : Z)
| VFloat (f : pyfloat)
| VStr (s : string)
| VList (l : list value)
| VDict (d : list (string * value)).

(** [dict[str, Any]], in insertion order. *)
Definition pydict : Type := list (string * value).

Inductive exn : Type :=
| TypeError
| ValueError
| KeyError
| IndexError
| AttributeError
| OverflowError
| HTTPError
| RequestException
| JSONDecodeError
| OSError.

Inductive result (A : Type) : Type :=
| Ok (a : A)
| Raise (e : exn).
Arguments Ok {A} a.
Arguments Raise {A} e.

(** Truth value of an object ([if x:], [not x]). *)
Definition float_truthy (f : pyfloat) : bool :=
  match f with
  | FFin m _ => negb (m =? 0)
  | _ => true
  end.

Definition truthy (v : value) : bool :=
  match v with
  | VNone => false
  | VBool b => b
  | VInt z => negb (z =? 0)
  | VFloat f => float_truthy f
  | VStr s => negb (String.eqb s "")
  | VList l => match l with [] => false | _ => true end
  | VDict d => match d with [] => false | _ => true end
  end.

(** [x == s] for a string literal [s]: only a [str] equals a [str]. *)
Definition eq_str (v : value) (s : string) : bool :=
  match v with
  | VStr t => String.eqb t s
  | _ => false
  end.

(* ===================================================================== *)
(** * The builtins [int] and [str]                                        *)
(* ===================================================================== *)

Definition is_space (c : ascii) : bool :=
  let n := nat_of_ascii c in
  ((9 <=? n) && (n <=? 13) || (28 <=? n) && (n <=? 32))%nat.

Definition digit_of (c : ascii) : option Z :=
  let n := nat_of_ascii c in
  if ((48 <=? n) && (n <=? 57))%nat then Some (Z.of_nat n - 48) else None.

Fixpoint lstrip (s : string) : string :=
  match s with
  | String c s' => if is_space c then lstrip s' else s
  | EmptyString => EmptyString
  end.

Fixpoint rev_string (s acc : string) : string :=
  match s with
  | EmptyString => acc
  | String c s' => rev_string s' (String c acc)
  end.

Definition strip (s : string) : string :=
  rev_string (lstrip (rev_string (lstrip s) "")) "".

(** Decimal digits, single underscores allowed between two digits. *)
Fixpoint parse_digits (s : string) (acc : Z) (after_digit : bool) : option Z :=
  match s with
  | EmptyString => if after_digit then Some acc else None
  | String c s' =>
      if Ascii.eqb c "_" then
        if after_digit then parse_digits s' acc false else None
      else
        match digit_of c with
        | Some d => parse_digits s' (10 * acc + d) true
        | None => None
        end
  end.

(** [int(s)] for a [str], base 10: surrounding white space, an optional
    sign, then digits.  [None] stands for [ValueError].  The literal is read
    byte by byte, so only ASCII digits and ASCII white space are recognised;
    the interpreter's cap on the number of digits is not modelled. *)
Definition int_of_str (s : string) : option Z :=
  match strip s with
  | String "-" s' => option_map Z.opp (parse_digits s' 0 false)
  | String "+" s' => parse_digits s' 0 false
  | s' => parse_digits s' 0 false
  end.

(** [int(f)] for a float: truncation towards zero. *)
Definition int_of_float (f : pyfloat) : result Z :=
  match f with
  | FNan => Raise ValueError
  | FInf _ => Raise OverflowError
  | FFin m e => Ok (if 0 <=? e then m * 2 ^ e else Z.quot m (2 ^ (- e)))
  end.

(** The builtin [int] applied to one argument. *)
Definition py_int (v : value) : result value :=
  match v with
  | VBool b => Ok (VInt (if b then 1 else 0))
  | VInt z => Ok (VInt z)
  | VFloat f => match int_of_float f with Ok z => Ok (VInt z) | Raise e => Raise e end
  | VStr s => match int_of_str s with Some z => Ok (VInt z) | None => Raise ValueError end
  | VNone | VList _ | VDict _ => Raise TypeError
  end.

Definition str_of_Z (z : Z) : string := NilZero.string_of_int (Z.to_int z).

(* ===================================================================== *)
(** * String methods                                                      *)
(* ===================================================================== *)

(** [s.startswith(pat)] *)
Fixpoint starts_with (pat s : string) : bool :=
  match pat, s with
  | EmptyString, _ => true
  | String a pat', String b s' => Ascii.eqb a b && starts_with pat' s'
  | String _ _, EmptyString => false
  end.

(** [s[n:]] *)
Fixpoint drop_str (n : nat) (s : string) : string :=
  match n, s with
  | O, _ => s
  | S n', String _ s' => drop_str n' s'
  | S _, EmptyString => EmptyString
  end.

(** Number of positions of [s] at which [old] starts. *)
Fixpoint occurrences (old s : string) : nat :=
  ((if starts_with old s then 1 else 0) +
   match s with
   | EmptyString => 0
   | String _ s' => occurrences old s'
   end)%nat.

(** [s.replace(old, new, 1)]: the leftmost occurrence only. *)
Fixpoint replace_first (old new s : string) {struct s} : string :=
  if starts_with old s then new ++ drop_str (String.length old) s
  else
    match s with
    | EmptyString => EmptyString
    | String c s' => String c (replace_first old new s')
    end.

(** [s.replace(old, new)] for a non-empty [old]: every occurrence, left to
    right, without overlap; [skip] counts the characters of a matched
    occurrence still to be passed over. *)
Fixpoint replace_all_from (old new : string) (skip : nat) (s : string) : string :=
  match s with
  | EmptyString => EmptyString
  | String c s' =>
      match skip with
      | S k => replace_all_from old new k s'
      | O =>
          if starts_with old s
          then new ++ replace_all_from old new (String.length old - 1) s'
          else String c (replace_all_from old new 0 s')
      end
  end.

Definition replace_all (old new s : string) : string :=
  replace_all_from old new 0 s.

(** [s.split(sep)] for a non-empty [sep]; [skip] as above.  The result
    always has a first piece, which the characters before the first
    separator are pushed onto. *)
Fixpoint split_from (sep : string) (skip : nat) (s : string) : list string :=
  match s with
  | EmptyString => [EmptyString]
  | String c s' =>
      match skip with
      | S k => split_from sep k s'
      | O =>
          if starts_with sep s
          then EmptyString :: split_from sep (String.length sep - 1) s'
          else
            match split_from sep 0 s' with
            | p :: ps => String c p :: ps
            | [] => [String c EmptyString]
            end
      end
  end.

(** [s.split()]: the maximal runs of characters that are not white space. *)
Fixpoint split_ws_from (s : string) : string * list string :=
  match s with
  | EmptyString => (EmptyString, [])
  | String c s' =>
      let '(w, ws) := split_ws_from s' in
      if is_space c
      then (EmptyString, match w with EmptyString => ws | _ => w :: ws end)
      else (String c w, ws)
  end.

Definition split_ws (s : string) : list string :=
  let '(w, ws) := split_ws_from s in
  match w with EmptyString => ws | _ => w :: ws end.

(** [s.split(sep)]; an empty separator is a [ValueError]. *)
Definition py_split (s : string) (sep : option string) : result (list string) :=
  match sep with
  | None => Ok (split_ws s)
  | Some EmptyString => Raise ValueError
  | Some sep => Ok (split_from sep 0 s)
  end.

(* ===================================================================== *)
(** * Dictionaries and lists                                              *)
(* ===================================================================== *)

Fixpoint dict_get (k : string) (d : pydict) : option value :=
  match d with
  | [] => None
  | (k', v) :: d' => if String.eqb k' k then Some v else dict_get k d'
  end.

(** [k in d] *)
Definition dict_mem (k : string) (d : pydict) : bool :=
  match dict_get k d with Some _ => true | None => false end.

(** [d[k] = v]: a key already there keeps its place, a new one goes last. *)
Fixpoint dict_set (k : string) (v : value) (d : pydict) : pydict :=
  match d with
  | [] => [(k, v)]
  | (k', v') :: d' =>
      if String.eqb k' k then (k', v) :: d' else (k', v') :: dict_set k v d'
  end.

(** [del d[k]] on a dictionary that has the key. *)
Fixpoint dict_del (k : string) (d : pydict) : pydict :=
  match d with
  | [] => []
  | (k', v) :: d' =>
      if String.eqb k' k then dict_del k d' else (k', v) :: dict_del k d'
  end.

(** [len(x)] and [x[i]] for a variable holding a list or [None]. *)
Definition py_len (l : option (list value)) : result nat :=
  match l with
  | Some vs => Ok (length vs)
  | None => Raise TypeError
  end.

Definition py_index (l : option (list value)) (i : nat) : result value :=
  match l with
  | Some vs => match vs !! i with Some v => Ok v | None => Raise IndexError end
  | None => Raise TypeError
  end.

(* ===================================================================== *)
(** * Mutation and exceptions                                             *)
(* ===================================================================== *)

(** A computation that may raise: the result monad. *)
Definition rbind {A B} (c : result A) (k : A -> result B) : result B :=
  match c with
  | Ok a => k a
  | Raise e => Raise e
  end.

(** A computation that mutates an object with contents of type [S] and may
    raise: it returns the contents it leaves behind in either case. *)
Definition M (S A : Type) : Type := S -> S * result A.

Definition ret {S A} (a : A) : M S A := fun s => (s, Ok a).

Definition raise {S A} (e : exn) : M S A := fun s => (s, Raise e).

Definition bind {S A B} (c : M S A) (k : A -> M S B) : M S B :=
  fun s =>
    match c s with
    | (s', Ok a) => k a s'
    | (s', Raise e) => (s', Raise e)
    end.

Definition lift {S A} (c : result A) : M S A := fun s => (s, c).

Declare Scope py_scope.
Delimit Scope py_scope with py.
Notation "x <- c ;; k" := (bind c (fun x => k))
  (at level 100, c at next level, right associativity) : py_scope.
Notation "c ;; k" := (bind c (fun _ => k))
  (at level 100, right associativity) : py_scope.
Notation "'try' x <- c ; k" := (rbind c (fun x => k))
  (at level 100, x name, c at next level, right associativity) : py_scope.
Local Open Scope py_scope.

(** [for x in xs: body(x)] *)
Fixpoint for_each {S A} (xs : list A) (body : A -> M S unit) : M S unit :=
  match xs with
  | [] => ret tt
  | x :: xs' => bind (body x) (fun _ => for_each xs' body)
  end.

(** [for item in items: body(item)], where [body] mutates the item. *)
Fixpoint for_each_item {S} (body : M S unit) (items : list S) : list S * result unit :=
  match items with
  | [] => ([], Ok tt)
  | x :: xs =>
      match body x with
      | (x', Ok _) =>
          let '(xs', r) := for_each_item body xs in (x' :: xs', r)
      | (x', Raise e) => (x' :: xs, Raise e)
      end
  end.

(** Operations on the record being normalised. *)
Definition contains_key (k : string) : M pydict bool :=
  fun d => (d, Ok (dict_mem k d)).

Definition getitem (k : string) : M pydict value :=
  fun d => (d, match dict_get k d with Some v => Ok v | None => Raise KeyError end).

(** [d.get(k)] *)
Definition get_or_none (k : string) : M pydict value :=
  fun d => (d, Ok (match dict_get k d with Some v => v | None => VNone end)).

Definition setitem (k : string) (v : value) : M pydict unit :=
  fun d => (dict_set k v d, Ok tt).

Definition delitem (k : string) : M pydict unit :=
  fun d => if dict_mem k d then (dict_del k d, Ok tt) else (d, Raise KeyError).

(** The guard shared by the three record transforms:
    [if not map_json: return]. *)
Definition unless_falsy (body : M pydict unit) : M (option pydict) unit :=
  fun map_json =>
    match map_json with
    | None => (None, Ok tt)
    | Some d =>
        if truthy (VDict d)
        then let '(d', r) := body d in (Some d', r)
        else (Some d, Ok tt)
    end.

(* ===================================================================== *)
(** * structs.py                                                          *)
(* ===================================================================== *)

Section Normalizer.

(** The text [str] gives for a float, a list or a dictionary (their
    [repr]).  No transform below looks inside it. *)
Variable py_repr : value -> string.

(** The builtin [str] applied to one argument. *)
Definition py_str (v : value) : result value :=
  Ok (VStr match v with
           | VStr s => s
           | VNone => "None"
           | VBool b => if b then "True" else "False"
           | VInt z => str_of_Z z
           | VFloat _ | VList _ | VDict _ => py_repr v
           end).

Definition NAME_KEY : string := "name".
Definition ID64_KEY : string := "id64".

(** [Mapper.__fix_val] *)
Definition __fix_val (s : value) (type : value -> result value) : result value :=
  if truthy s && negb (eq_str s "null") then type s else Ok VNone.

(** [Mapper.__init__]: the dictionary the new object holds. *)
Definition Mapper (name id64 : value) : result pydict :=
  try n <- __fix_val name py_str;
  try i <- __fix_val id64 py_int;
  Ok (dict_set ID64_KEY i (dict_set NAME_KEY n [])).

(** The properties [Mapper.name] and [Mapper.id64]. *)
Definition Mapper_name (self : pydict) : result value :=
  match dict_get NAME_KEY self with Some v => Ok v | None => Raise KeyError end.

Definition Mapper_id64 (self : pydict) : result value :=
  match dict_get ID64_KEY self with Some v => Ok v | None => Raise KeyError end.

(* ===================================================================== *)
(** * update.py: the normaliser                                           *)
(* ===================================================================== *)

Definition _ID_KEY : string := "id".
Definition _NAME_KEY : string := "name".
Definition _MAPPER_NAME_KEY : string := "mapper_name".
Definition _MAPPER_ID64_KEY : string := "mapper_steamid64".
Definition _MAPPERS_KEY : string := "mappers".
Definition _STR_SEPARATOR : string := ", ".

Definition _URL_KEYS : list string := ["workshop_url"].
Definition _INT_KEYS : list string := ["id"; "difficulty"].

Definition _str_to_list (val : value) (sep : option string)
  : result (option (list value)) :=
  if negb (truthy val) then Ok None
  else
    match val with
    | VStr s => try l <- py_split s sep; Ok (Some (map VStr l))
    | _ => Raise AttributeError
    end.

(** The contents of the list [values] after the call ([None] when the
    variable holds no list). *)
Definition _norm_list (values : option (list value)) (size : option Z)
  : option (list value) :=
  match values, size with
  | Some vs, Some size =>
      if size <? 0 then Some vs
      else
        let length := Z.of_nat (length vs) in
        if length >? size
        then Some (take (Z.to_nat size) vs)
        else Some (vs ++ replicate (Z.to_nat (size - length)) VNone)
  | _, _ => values
  end.

(** [if key in map_json: xs = _str_to_list(map_json[key], sep);
    del map_json[key]], from the initial [xs = []]. *)
Definition take_delimited (key : string) : M pydict (option (list value)) :=
  present <- contains_key key ;;
  if present : bool then
    val <- getitem key ;;
    xs <- lift (_str_to_list val (Some _STR_SEPARATOR)) ;;
    delitem key ;;
    ret xs
  else ret (Some []).

(** [for i in range(length):
       mappers.append(Mapper(mapper_names[i], mapper_id64s[i]))] *)
Fixpoint collect_mappers (range : list nat)
    (mapper_names mapper_id64s : option (list value)) (mappers : list value)
  : result (list value) :=
  match range with
  | [] => Ok mappers
  | i :: range' =>
      try name <- py_index mapper_names i;
      try id64 <- py_index mapper_id64s i;
      try m <- Mapper name id64;
      collect_mappers range' mapper_names mapper_id64s (mappers ++ [VDict m])
  end.

Definition _fix_mappers : M (option pydict) unit :=
  unless_falsy (
    mapper_names <- take_delimited _MAPPER_NAME_KEY ;;
    mapper_id64s <- take_delimited _MAPPER_ID64_KEY ;;
    len_names <- lift (py_len mapper_names) ;;
    len_id64s <- lift (py_len mapper_id64s) ;;
    let length := Nat.max len_names len_id64s in
    let mapper_names := _norm_list mapper_names (Some (Z.of_nat length)) in
    let mapper_id64s := _norm_list mapper_id64s (Some (Z.of_nat length)) in
    mappers <- lift (collect_mappers (seq 0 length) mapper_names mapper_id64s []) ;;
    setitem _MAPPERS_KEY (VList mappers)).

(** [url.replace('http://', 'https://', 1).replace('/?', '?', 1)] *)
Definition fix_url (url : value) : result value :=
  match url with
  | VStr s =>
      Ok (VStr (replace_first "/?" "?" (replace_first "http://" "https://" s)))
  | _ => Raise AttributeError
  end.

(** The body of the loop of [_fix_urls]. *)
Definition fix_url_at (key : string) : M pydict unit :=
  url <- getitem key ;;
  url' <- lift (fix_url url) ;;
  setitem key url'.

Definition _fix_urls : M (option pydict) unit :=
  unless_falsy (for_each _URL_KEYS fix_url_at).

(** The body of the loop of [_fix_types]; [ret tt] is its [continue]. *)
Definition fix_type_at (key : string) : M pydict unit :=
  val <- get_or_none key ;;
  if negb (truthy val) then ret tt
  else
    n <- lift (py_int val) ;;
    setitem key n.

Definition _fix_types : M (option pydict) unit :=
  unless_falsy (for_each _INT_KEYS fix_type_at).

Definition _fix_maps : M (option (list (option pydict))) unit :=
  fun maps_json =>
    match maps_json with
    | None => (None, Ok tt)
    | Some [] => (Some [], Ok tt)
    | Some items =>
        let '(items', r) :=
          for_each_item (_fix_mappers ;; _fix_urls ;; _fix_types) items in
        (Some items', r)
    end.

End Normalizer.

(* ===================================================================== *)
(** * update.py: the fetcher                                              *)
(* ===================================================================== *)

(** What the fetcher reads of a [requests.Response]. *)
Record Response : Type := {
  status_code : Z;
  text : string
}.

(** [Response.raise_for_status]: [HTTPError] for a 4xx or 5xx status. *)
Definition raise_for_status (r : Response) : result unit :=
  if (400 <=? status_code r) && (status_code r <? 600)
  then Raise HTTPError else Ok tt.

Section Fetcher.

(** The remote side: what a GET of a URL comes back with, given the
    requests sent before it; [Raise] when no response arrives. *)
Variable server : list string -> string -> result Response.

(** [json.loads] on the body of a response. *)
Variable json_loads : string -> result value.

(** [requests.get]: the state is the list of the requests sent so far,
    the latest first. *)
Definition requests_get (url : string) : M (list string) Response :=
  fun sent => (url :: sent, server sent url).

Definition _get_url_response (url : option string)
  : M (list string) (option Response) :=
  match url with
  | None | Some EmptyString => ret None
  | Some url =>
      response <- requests_get url ;;
      lift (raise_for_status response) ;;
      if status_code response =? 204 then ret None
      else ret (Some response)
  end.

Definition _get_url_json (url : option string) : M (list string) (option value) :=
  response <- _get_url_response url ;;
  match response with
  | None => ret None
  | Some response =>
      body <- lift (json_loads (text response)) ;;
      ret (Some body)
  end.

End Fetcher.

(* ===================================================================== *)
(** * update.py: the writer                                               *)
(* ===================================================================== *)

Definition _JSON_INDENT : Z := 4.
Definition _JSON_SEPARATORS : string * string := (",", ":").
Definition _DUMP_JSON_FILE_EXT : string := ".json".
Definition _DUMP_JSON_FILE_MIN_EXT : string := ".min" ++ _DUMP_JSON_FILE_EXT.

Section Writer.

(** The [unicode-escape] codec with [errors='replace'], which raises in
    neither direction; the encoded form is a byte string. *)
Variable encode_escape : string -> string.
Variable decode_escape : string -> string.

Definition _unescape (s : option string) : option string :=
  match s with
  | None | Some EmptyString => s
  | Some s =>
      Some (decode_escape (replace_all "\\u" "\u" (encode_escape s)))
  end.

(** [os.path]. *)
Variable normpath basename dirname : string -> string.
Variable splitext : string -> string * string.
Variable join : string -> string -> string.

(** [json.dumps(obj, ensure_ascii=False, indent=..., separators=...)]. *)
Variable json_dumps : value -> option Z -> option (string * string) -> result string.

(** The file system: a state [fs] with the operations the writer calls. *)
Variable fs : Type.
Variable path_exists : string -> fs -> bool.
Variable makedirs : string -> M fs unit.
(** [open(path, 'w')]: the file is created or emptied. *)
Variable open_w : string -> M fs unit.
(** [file.write(text)] and the close at the end of the [with] block. *)
Variable write_close : string -> string -> M fs unit.

Definition exists_path (path : string) : M fs bool :=
  fun st => (st, Ok (path_exists path st)).

(** [with open(path, 'w') as file: file.write(_unescape(json.dumps(...)))] *)
Definition write_dump (path : string) (json_object : value)
    (indent : option Z) (separators : option (string * string)) : M fs unit :=
  open_w path ;;
  dumped <- lift (json_dumps json_object indent separators) ;;
  match _unescape (Some dumped) with
  | Some out => write_close path out
  | None => raise TypeError
  end.

(** [if file_path and not os.path.exists(file_path):
       os.makedirs(file_path)] *)
Definition ensure_directory (file_path : string) : M fs unit :=
  if truthy (VStr file_path) then
    there <- exists_path file_path ;;
    if negb there then makedirs file_path else ret tt
  else ret tt.

(** From the directory check to [return True]: the two files. *)
Definition dump_both (file_path file_name : string) (json_object : value)
  : M fs bool :=
  ensure_directory file_path ;;
  let dump_path := join file_path file_name in
  write_dump (dump_path ++ _DUMP_JSON_FILE_EXT) json_object
    (Some _JSON_INDENT) None ;;
  write_dump (dump_path ++ _DUMP_JSON_FILE_MIN_EXT) json_object
    None (Some _JSON_SEPARATORS) ;;
  ret true.

Definition _dump_json (file_path file_name : option string) (json_object : value)
  : M fs bool :=
  match file_path with
  | None => ret false
  | Some file_path =>
      if negb (truthy json_object) then ret false
      else
        let file_path := normpath file_path in
        match file_name with
        | None | Some EmptyString =>
            if negb (truthy (VStr file_path)) then ret false
            else
              let file_base_name := basename file_path in
              let file_split_ext := splitext file_base_name in
              dump_both (dirname file_path) (fst file_split_ext) json_object
        | Some file_name => dump_both file_path file_name json_object
        end
  end.

(** Vocabulary of the writer's properties. *)

(** The directory and the base name the two files go to. *)
Definition dump_target (file_path : string) (file_name : option string)
  : string * string :=
  match file_name with
  | None | Some EmptyString =>
      (dirname (normpath file_path),
       fst (splitext (basename (normpath file_path))))
  | Some file_name => (normpath file_path, file_name)
  end.

(** The writer has nothing to write: no path, a falsy value, or no base
    name together with a path that normalises to the empty string. *)
Definition nothing_to_dump (file_path file_name : option string)
    (json_object : value) : Prop :=
  file_path = None
  \/ truthy json_object = false
  \/ exists p, file_path = Some p
               /\ (file_name = None \/ file_name = Some "")
               /\ normpath p = "".

(** A file is written: it is opened for writing, the dump of the value
    is made and un-escaped, and that text is written and the file closed,
    each step succeeding. *)
Definition file_written (path : string) (json_object : value)
    (indent : option Z) (separators : option (string * string))
    (st st' : fs) : Prop :=
  exists st1 dumped out,
    open_w path st = (st1, Ok tt)
    /\ json_dumps json_object indent separators = Ok dumped
    /\ _unescape (Some dumped) = Some out
    /\ write_close path out st1 = (st', Ok tt).

End Writer.


(** The body of the loop of [_fix_maps]: the three transforms in turn. *)
Definition fix_map (py_repr : value -> string) : M (option pydict) unit :=
  _fix_mappers py_repr ;; _fix_urls ;; _fix_types.

(* ===================================================================== *)
(** * update.py: the run                                                  *)
(* ===================================================================== *)

Definition _BASE_URL : string :=
  "https://raw.githubusercontent.com/zer0k-z/kz-map-info/master/".

(** [_FILE_NAMES], in the order [items()] gives. *)
Definition _FILE_NAMES : list (string * string) :=
  [("MapsWithMappers", "maps");
   ("MapsWithMappers_Global", "global");
   ("MapsWithMappers_NonGlobal", "non-global");
   ("IncompletedMaps", "uncompleted")].

(** [v[key]] for a string [key]: only a dictionary has string keys. *)
Definition subscript (v : value) (key : string) : result value :=
  match v with
  | VDict d =>
      match dict_get key d with Some x => Ok x | None => Raise KeyError end
  | _ => Raise TypeError
  end.

(** The items [for x in v] goes through: the elements of a list, the keys
    of a dictionary, the characters of a string (here its bytes, which are
    its characters when the text is ASCII). *)
Definition iterate (v : value) : result (list value) :=
  match v with
  | VList items => Ok items
  | VDict d => Ok (map (fun kv => VStr (fst kv)) d)
  | VStr s => Ok (map (fun c => VStr (String c EmptyString)) (list_ascii_of_string s))
  | VNone | VBool _ | VInt _ | VFloat _ => Raise TypeError
  end.

(** [_BASE_URL + fkey + _DUMP_JSON_FILE_EXT] *)
Definition source_url (fkey : string) : string :=
  _BASE_URL ++ fkey ++ _DUMP_JSON_FILE_EXT.

Section Run.

Variable py_repr : value -> string.
Variable server : list string -> string -> result Response.
Variable json_loads : string -> result value.
Variable encode_escape decode_escape : string -> string.
Variable normpath basename dirname : string -> string.
Variable splitext : string -> string * string.
Variable join : string -> string -> string.
Variable json_dumps : value -> option Z -> option (string * string) -> result string.
Variable fs : Type.
Variable path_exists : string -> fs -> bool.
Variable makedirs open_w : string -> M fs unit.
Variable write_close : string -> string -> M fs unit.

(** [__file__] *)
Variable script_file : string.

Definition _CURRENT_PATH : string := dirname script_file.
Definition _PARENT_PATH : string := join _CURRENT_PATH "..".

(** The three transforms on an item of the fetched array, whatever the
    item is: they return at their guard on a falsy item, and
    [_fix_mappers] raises [TypeError] on a truthy item that is no
    dictionary (it has no string keys to test, read or assign). *)
Definition fix_item (map_json : value) : value * result unit :=
  match map_json with
  | VDict d =>
      match fix_map py_repr (Some d) with
      | (Some d', r) => (VDict d', r)
      | (None, r) => (VDict d, r)
      end
  | _ => if truthy map_json then (map_json, Raise TypeError) else (map_json, Ok tt)
  end.

(** [_fix_maps] on the value [json.loads] returned: a list is gone through
    item by item; a dictionary is gone through key by key and a string
    character by character, which are strings; anything else that is
    truthy cannot be iterated. *)
Definition fix_maps_value (maps_json : value) : value * result unit :=
  if negb (truthy maps_json) then (maps_json, Ok tt)
  else
    match maps_json with
    | VList items =>
        let '(items', r) := for_each_item fix_item items in (VList items', r)
    | VDict _ | VStr _ =>
        match iterate maps_json with
        | Ok keys => (maps_json, snd (for_each_item fix_item keys))
        | Raise e => (maps_json, Raise e)
        end
    | VNone | VBool _ | VInt _ | VFloat _ => (maps_json, Raise TypeError)
    end.

(** The state of a run: the requests sent and the file system. *)
Record world : Type := {
  sent : list string;
  disk : fs
}.

Definition on_network {A} (c : M (list string) A) : M world A :=
  fun w => let '(s, r) := c (sent w) in ({| sent := s; disk := disk w |}, r).

Definition on_disk {A} (c : M fs A) : M world A :=
  fun w => let '(st, r) := c (disk w) in ({| sent := sent w; disk := st |}, r).

(** [_dump_json(file_path, file_name, json_object)] with whatever the
    record holds as [file_name]: a falsy one stands for no name, and
    [os.path.join] raises [TypeError] on a truthy one that is no string. *)
Definition dump_json_named (file_path : string) (file_name json_object : value)
  : M fs bool :=
  match file_name with
  | VStr name =>
      _dump_json encode_escape decode_escape normpath basename dirname
        splitext join json_dumps fs path_exists makedirs open_w write_close
        (Some file_path) (Some name) json_object
  | _ =>
      if truthy file_name then
        if negb (truthy json_object) then ret false
        else
          ensure_directory fs path_exists makedirs (normpath file_path) ;;
          raise TypeError
      else
        _dump_json encode_escape decode_escape normpath basename dirname
          splitext join json_dumps fs path_exists makedirs open_w write_close
          (Some file_path) None json_object
  end.

(** [for map_json in maps_json:
       is_success = _dump_json(dump_path, <name>, map_json)
       if not is_success: return]
    The result tells whether the loop ran to its end. *)
Fixpoint dump_each (dump_path : string) (name_of : value -> result value)
    (items : list value) : M world bool :=
  match items with
  | [] => ret true
  | map_json :: items' =>
      file_name <- lift (name_of map_json) ;;
      is_success <- on_disk (dump_json_named dump_path file_name map_json) ;;
      if is_success : bool then dump_each dump_path name_of items'
      else ret false
  end.

(** The body of the loop of [_main] for one source; the result tells
    whether it ran to its end or returned from [_main]. *)
Definition main_source (fkey fname : string) : M world bool :=
  fetched <- on_network
    (_get_url_json server json_loads (Some (source_url fkey))) ;;
  let maps_json := match fetched with Some v => v | None => VNone end in
  if negb (truthy maps_json) then ret false
  else
    let '(maps_json, fixed) := fix_maps_value maps_json in
    lift fixed ;;
    is_success <- on_disk
      (dump_json_named _PARENT_PATH (VStr fname) maps_json) ;;
    if negb is_success then ret false
    else
      let dump_path := join _PARENT_PATH fname in
      items <- lift (iterate maps_json) ;;
      finished <- dump_each dump_path
        (fun map_json => subscript map_json _NAME_KEY) items ;;
      if negb finished then ret false
      else
        items <- lift (iterate maps_json) ;;
        dump_each dump_path
          (fun map_json =>
             try id <- subscript map_json _ID_KEY; py_str py_repr id)
          items.

Fixpoint main_sources (table : list (string * string)) : M world unit :=
  match table with
  | [] => ret tt
  | (fkey, fname) :: table' =>
      go_on <- main_source fkey fname ;;
      if go_on : bool then main_sources table' else ret tt
  end.

Definition _main : M world unit := main_sources _FILE_NAMES.

End Run.

(* ===================================================================== *)
(** * Vocabulary of the properties                                        *)
(* ===================================================================== *)

(** The piece of a delimited field the restructuring reads: the substrings
    between [", "] when the field holds a string, nothing otherwise. *)
Definition substrings (d : pydict) (key : string) : list string :=
  match dict_get key d with
  | Some (VStr s) => split_from _STR_SEPARATOR 0 s
  | _ => []
  end.

(** A field that needs no conversion: absent, or holding a falsy value. *)
Definition settled (d : pydict) (key : string) : Prop :=
  match dict_get key d with
  | Some val => truthy val = false
  | None => True
  end.

(** A raw value the construction rule of a credit keeps: truthy and not
    the text [null]. *)
Definition meaningful (raw : value) : Prop :=
  truthy raw = true /\ raw <> VStr "null".

(** A delimited field the restructuring can read: absent, or holding a
    non-empty string. *)
Definition delimited (d : pydict) (key : string) : Prop :=
  dict_get key d = None
  \/ exists s, dict_get key d = Some (VStr s) /\ s <> "".

(** A substring that stands for no value: empty, or the text [null]. *)
Definition absent_text (s : string) : bool :=
  String.eqb s "" || String.eqb s "null".

(** The name (the id) of the credit made from the [i]-th substring of a
    list, [None] when the list has no [i]-th substring. *)
Definition credit_name (o : option string) (name : value) : Prop :=
  match o with
  | Some s => if absent_text s then name = VNone else name = VStr s
  | None => name = VNone
  end.

Definition credit_id64 (o : option string) (id64 : value) : Prop :=
  match o with
  | Some s =>
      if absent_text s then id64 = VNone
      else exists z, int_of_str s = Some z /\ id64 = VInt z
  | None => id64 = VNone
  end.

(** [c in s] for a character. *)
Fixpoint has_char (c : ascii) (s : string) : bool :=
  match s with
  | EmptyString => false
  | String a s' => Ascii.eqb a c || has_char c s'
  end.

(** The [i]-th element of a list of substrings padded to [n] elements. *)
Definition padded (l : list string) (i : nat) : value :=
  match l !! i with
  | Some s => VStr s
  | None => VNone
  end.

(** The two rewrites [_fix_urls] applies to a URL, in this order. *)
Definition https (s : string) : string := replace_first "http://" "https://" s.
Definition unslash (s : string) : string := replace_first "/?" "?" s.

(** A server that answers every request with status 300 and the body
    [[]], and a parser that reads that body. *)
Definition server_300 : list string -> string -> result Response :=
  fun _ _ => Ok {| status_code := 300; text := "[]" |}.

Definition loads_empty_array (body : string) : result value :=
  if String.eqb body "[]" then Ok (VList []) else Raise JSONDecodeError.

(** A rendering to run the normaliser with on records whose values are
    strings: [str] of a string does not call it. *)
Definition opaque_repr : value -> string := fun _ => "<object>".

(** The record of the end-to-end scenario, before and after. *)
Definition scenario_record : pydict :=
  [("id", VStr "5"); ("name", VStr "kz_example");
   ("mapper_name", VStr "Alice, Bob");
   ("mapper_steamid64", VStr "76561198000000001");
   ("workshop_url", VStr "http://x/?id=5")].

Definition scenario_normalized : pydict :=
  [("id", VInt 5); ("name", VStr "kz_example");
   ("workshop_url", VStr "https://x?id=5");
   ("mappers",
    VList [VDict [("name", VStr "Alice"); ("id64", VInt 76561198000000001)];
           VDict [("name", VStr "Bob"); ("id64", VNone)]])].

(** [sep.join(pieces)] *)
Fixpoint join_str (sep : string) (pieces : list string) : string :=
  match pieces with
  | [] => EmptyString
  | [p] => p
  | p :: ps => p ++ sep ++ join_str sep ps
  end.

(** [list(d.keys())] *)
Definition dict_keys (d : pydict) : list string := map fst d.

(** An integer field after coercion: absent, falsy, or an integer. *)
Definition coerced (d : pydict) (key : string) : Prop :=
  match dict_get key d with
  | Some val => truthy val = false \/ exists z, val = VInt z
  | None => True
  end.

(** A credit as [Mapper] builds it. *)
Definition credit_shaped (v : value) : Prop :=
  exists n i,
    v = VDict [("name", n); ("id64", i)]
    /\ (n = VNone \/ exists s, n = VStr s)
    /\ (i = VNone \/ exists z, i = VInt z).

(** A record the three transforms accept. *)
Definition well_formed (d : pydict) : Prop :=
  delimited d _MAPPER_NAME_KEY
  /\ delimited d _MAPPER_ID64_KEY
  /\ (forall s, In s (substrings d _MAPPER_ID64_KEY) ->
        absent_text s = true \/ exists z, int_of_str s = Some z)
  /\ (exists u, dict_get "workshop_url" d = Some (VStr u))
  /\ (forall key val, In key _INT_KEYS -> dict_get key d = Some val ->
        truthy val = true -> exists n, py_int val = Ok n).

(** The value of an item that is a record or [None]. *)
Definition record_value (o : option pydict) : value :=
  match o with
  | Some d => VDict d
  | None => VNone
  end.

(** A server that has no content for any source, a server that cannot be
    reached, a parser that reads nothing, and a file system with no state,
    to run [_main] with. *)
Definition server_204 : list string -> string -> result Response :=
  fun _ _ => Ok {| status_code := 204; text := "" |}.

Definition server_down : list string -> string -> result Response :=
  fun _ _ => Raise RequestException.

Definition loads_nothing (body : string) : result value := Raise JSONDecodeError.

Definition no_codec (s : string) : string := s.

Definition no_splitext (s : string) : string * string := (s, EmptyString).

Definition no_join (a b : string) : string := a ++ "/" ++ b.

Definition no_dumps (v : value) (indent : option Z)
    (separators : option (string * string)) : result string :=
  Raise TypeError.

Definition no_exists (path : string) (st : unit) : bool := false.

Definition no_op (path : string) : M unit unit := ret tt.

Definition no_write (path text : string) : M unit unit := ret tt.

(** A server whose answer loads to an array of one record that has a URL
    and no name, and a serialiser that always gives the same text. *)
Definition server_nameless : list string -> string -> result Response :=
  fun _ _ => Ok {| status_code := 200; text := "[{}]" |}.

Definition loads_nameless (body : string) : result value :=
  Ok (VList [VDict [("workshop_url", VStr "https://x")]]).

Definition dumps_constant (v : value) (indent : option Z)
    (separators : option (string * string)) : result string :=
  Ok "[]".

(* ===================================================================== *)
(** * Properties                                                          *)
(* ===================================================================== *)

(** ** Dictionaries *)

Lemma dict_get_set_eq k v d : dict_get k (dict_set k v d) = Some v.
Proof.
  induction d as [|[k' v'] d IH]; simpl.
  - by rewrite String.eqb_refl.
  - destruct (String.eqb k' k) eqn:E; simpl; by rewrite E.
Qed.

Lemma dict_get_set_ne k k' v d :
  k <> k' -> dict_get k' (dict_set k v d) = dict_get k' d.
Proof.
  intros Hne. induction d as [|[k0 v0] d IH]; simpl.
  - destruct (String.eqb k k') eqn:E; [|done].
    by apply String.eqb_eq in E.
  - destruct (String.eqb k0 k) eqn:E; simpl; [|by rewrite IH].
    apply String.eqb_eq in E; subst k0.
    destruct (String.eqb k k') eqn:E'; [|done].
    by apply String.eqb_eq in E'.
Qed.

Lemma dict_get_del_eq k d : dict_get k (dict_del k d) = None.
Proof.
  induction d as [|[k' v'] d IH]; simpl; [done|].
  destruct (String.eqb k' k) eqn:E; simpl; by rewrite ?E.
Qed.

Lemma dict_get_del_ne k k' d :
  k <> k' -> dict_get k' (dict_del k d) = dict_get k' d.
Proof.
  intros Hne. induction d as [|[k0 v0] d IH]; simpl; [done|].
  destruct (String.eqb k0 k) eqn:E; simpl; [|by rewrite IH].
  apply String.eqb_eq in E; subst k0.
  destruct (String.eqb k k') eqn:E'; [|done].
  by apply String.eqb_eq in E'.
Qed.

Lemma dict_del_absent k d : dict_get k d = None -> dict_del k d = d.
Proof.
  induction d as [|[k' v'] d IH]; simpl; [done|].
  destruct (String.eqb k' k); [done|]. intros H. by rewrite IH.
Qed.

Lemma dict_set_set k v v' d : dict_set k v (dict_set k v' d) = dict_set k v d.
Proof.
  induction d as [|[k0 v0] d IH]; simpl.
  - by rewrite String.eqb_refl.
  - destruct (String.eqb k0 k) eqn:E; simpl; rewrite E; [done|by rewrite IH].
Qed.

Lemma dict_set_nonempty k v d : dict_set k v d <> [].
Proof. destruct d as [|[k0 v0] d]; simpl; [done|]. by destruct (String.eqb k0 k). Qed.

Lemma truthy_dict d : d <> [] -> truthy (VDict d) = true.
Proof. by destruct d. Qed.

(** ** Running the monad *)

Ltac run :=
  unfold unless_falsy, bind, ret, lift, raise, contains_key, getitem,
    get_or_none, setitem, delitem, dict_mem.

Lemma unless_falsy_run body d :
  d <> [] ->
  unless_falsy body (Some d) = let '(d', r) := body d in (Some d', r).
Proof. intros Hd. unfold unless_falsy. by rewrite truthy_dict. Qed.

(** ** Mapper credits *)

Section NormalizerProperties.

Variable py_repr : value -> string.

Lemma take_delimited_absent key d :
  dict_get key d = None -> take_delimited key d = (d, Ok (Some [])).
Proof. intros H. unfold take_delimited. run. by rewrite H. Qed.

Lemma take_delimited_falsy key v d :
  dict_get key d = Some v -> truthy v = false ->
  take_delimited key d = (dict_del key d, Ok None).
Proof.
  intros H Hv. unfold take_delimited, _str_to_list. run.
  by repeat (first [rewrite H | rewrite Hv | progress simpl]).
Qed.

Lemma take_delimited_str key s d :
  dict_get key d = Some (VStr s) -> s <> "" ->
  take_delimited key d =
    (dict_del key d, Ok (Some (map VStr (split_from _STR_SEPARATOR 0 s)))).
Proof.
  intros H Hs. unfold take_delimited, _str_to_list. run.
  assert (E : String.eqb s "" = false) by by apply String.eqb_neq.
  by repeat (first [rewrite H | rewrite E | progress simpl]).
Qed.

Lemma take_delimited_other key v d :
  dict_get key d = Some v -> truthy v = true -> (forall s, v <> VStr s) ->
  take_delimited key d = (d, Raise AttributeError).
Proof.
  intros H Hv Hs. unfold take_delimited, _str_to_list. run.
  repeat (first [rewrite H | rewrite Hv | progress simpl]).
  destruct v; try done. by destruct (Hs s).
Qed.

(** What reading one delimited field can do to the record. *)
Lemma take_delimited_cases key d :
  (exists xs, take_delimited key d = (d, Ok xs) /\ dict_get key d = None)
  \/ (exists xs, take_delimited key d = (dict_del key d, Ok xs))
  \/ take_delimited key d = (d, Raise AttributeError).
Proof.
  destruct (dict_get key d) as [v|] eqn:H.
  - destruct (truthy v) eqn:Hv.
    + destruct v; try (right; right; by apply (take_delimited_other _ _ _ H Hv)).
      right; left. eexists. apply take_delimited_str; [done|].
      intros ->. by simpl in Hv.
    + right; left. eexists. by apply (take_delimited_falsy _ _ _ H Hv).
  - left. eexists. split; [by apply take_delimited_absent|done].
Qed.

Lemma fix_mappers_run d :
  d <> [] ->
  _fix_mappers py_repr (Some d) =
    match take_delimited _MAPPER_NAME_KEY d with
    | (d1, Raise e) => (Some d1, Raise e)
    | (d1, Ok names) =>
        match take_delimited _MAPPER_ID64_KEY d1 with
        | (d2, Raise e) => (Some d2, Raise e)
        | (d2, Ok id64s) =>
            match py_len names, py_len id64s with
            | Ok n, Ok m =>
                let size := Some (Z.of_nat (Nat.max n m)) in
                match collect_mappers py_repr (seq 0 (Nat.max n m))
                        (_norm_list names size) (_norm_list id64s size) [] with
                | Ok mappers =>
                    (Some (dict_set _MAPPERS_KEY (VList mappers) d2), Ok tt)
                | Raise e => (Some d2, Raise e)
                end
            | Raise e, _ | Ok _, Raise e => (Some d2, Raise e)
            end
        end
    end.
Proof.
  intros Hd. unfold _fix_mappers. rewrite unless_falsy_run by done.
  unfold bind at 1.
  destruct (take_delimited _MAPPER_NAME_KEY d) as [d1 [names|e]]; [|done].
  unfold bind at 1.
  destruct (take_delimited _MAPPER_ID64_KEY d1) as [d2 [id64s|e]]; [|done].
  run. destruct (py_len names) as [n|e]; [|done].
  destruct (py_len id64s) as [m|e]; [|done].
  by destruct (collect_mappers _ _ _ _ _).
Qed.

(** C3, as the code has it: on a non-empty record with neither
    [mapper_name] nor [mapper_steamid64], [_fix_mappers] returns normally
    and stores an empty list under [mappers]; nothing else changes. *)
Theorem fix_mappers_without_credit_fields d :
  d <> [] ->
  dict_get _MAPPER_NAME_KEY d = None ->
  dict_get _MAPPER_ID64_KEY d = None ->
  _fix_mappers py_repr (Some d) =
    (Some (dict_set _MAPPERS_KEY (VList []) d), Ok tt).
Proof.
  intros Hd Hn Hi. rewrite fix_mappers_run by done.
  rewrite (take_delimited_absent _ _ Hn), (take_delimited_absent _ _ Hi).
  reflexivity.
Qed.

(** C10: on a non-empty record whose [mapper_name] or [mapper_steamid64]
    is present and holds the empty string, [_str_to_list] gives [None] for
    that field, [len(None)] is a [TypeError], and [_fix_mappers] raises
    ([TypeError], or [AttributeError] when the other field holds a truthy
    value that is not a string) without storing [mappers]. *)
Theorem fix_mappers_empty_field_raises d :
  d <> [] ->
  dict_get _MAPPER_NAME_KEY d = Some (VStr "")
  \/ dict_get _MAPPER_ID64_KEY d = Some (VStr "") ->
  _str_to_list (VStr "") (Some _STR_SEPARATOR) = Ok None
  /\ py_len None = Raise TypeError
  /\ exists d' e,
       _fix_mappers py_repr (Some d) = (Some d', Raise e)
       /\ (e = TypeError \/ e = AttributeError)
       /\ dict_get _MAPPERS_KEY d' = dict_get _MAPPERS_KEY d.
Proof.
  intros Hd H. split; [done|]. split; [done|].
  rewrite fix_mappers_run by done.
  assert (Hk1 : forall x, dict_get _MAPPERS_KEY (dict_del _MAPPER_NAME_KEY x)
                          = dict_get _MAPPERS_KEY x)
    by (intros x; by apply dict_get_del_ne).
  assert (Hk2 : forall x, dict_get _MAPPERS_KEY (dict_del _MAPPER_ID64_KEY x)
                          = dict_get _MAPPERS_KEY x)
    by (intros x; by apply dict_get_del_ne).
  destruct H as [H|H].
  - rewrite (take_delimited_falsy _ _ _ H) by done.
    destruct (take_delimited_cases _MAPPER_ID64_KEY (dict_del _MAPPER_NAME_KEY d))
      as [(xs & -> & _)|[(xs & ->)| ->]]; simpl;
      do 2 eexists; (split; [reflexivity|]); rewrite ?Hk2, ?Hk1; auto.
  - destruct (take_delimited_cases _MAPPER_NAME_KEY d)
      as [(xs & E & Hn)|[(xs & E)|E]]; rewrite E.
    + rewrite (take_delimited_falsy _ _ _ H) by done.
      destruct xs as [xs|]; simpl;
        do 2 eexists; (split; [reflexivity|]); rewrite ?Hk2, ?Hk1; auto.
    + assert (H' : dict_get _MAPPER_ID64_KEY (dict_del _MAPPER_NAME_KEY d)
                   = Some (VStr ""))
        by (by rewrite dict_get_del_ne).
      rewrite (take_delimited_falsy _ _ _ H') by done.
      destruct xs as [xs|]; simpl;
        do 2 eexists; (split; [reflexivity|]); rewrite ?Hk2, ?Hk1; auto.
    + do 2 eexists. split; [reflexivity|]. auto.
Qed.

Lemma take_delimited_ok key d :
  delimited d key ->
  take_delimited key d =
    (dict_del key d, Ok (Some (map VStr (substrings d key)))).
Proof.
  unfold substrings. intros [H|(s & H & Hs)]; rewrite H.
  - by rewrite take_delimited_absent, dict_del_absent.
  - by apply take_delimited_str.
Qed.

Lemma norm_list_pads (vs : list value) (n : nat) :
  (length vs <= n)%nat ->
  _norm_list (Some vs) (Some (Z.of_nat n))
  = Some (vs ++ replicate (n - length vs) VNone).
Proof.
  intros H. unfold _norm_list.
  destruct (Z.of_nat n <? 0) eqn:E1; [lia|].
  destruct (Z.of_nat (length vs) >? Z.of_nat n) eqn:E2; [lia|].
  do 3 f_equal. lia.
Qed.

Lemma padded_lookup (l : list string) (n i : nat) :
  (i < n)%nat ->
  (map VStr l ++ replicate (n - length l) VNone) !! i = Some (padded l i).
Proof.
  unfold padded. revert n i. induction l as [|s l IH]; intros n i Hi; simpl.
  - rewrite Nat.sub_0_r. by apply lookup_replicate_2.
  - destruct i as [|i]; [done|]. destruct n as [|n]; [lia|].
    simpl. apply IH. lia.
Qed.

Lemma fix_val_text s type :
  __fix_val (VStr s) type = if absent_text s then Ok VNone else type (VStr s).
Proof.
  unfold __fix_val, absent_text. simpl.
  by destruct (String.eqb s ""), (String.eqb s "null").
Qed.

Lemma Mapper_of_padded names id64s i :
  (forall s, id64s !! i = Some s ->
     absent_text s = true \/ exists z, int_of_str s = Some z) ->
  exists name id64,
    Mapper py_repr (padded names i) (padded id64s i)
    = Ok [("name", name); ("id64", id64)]
    /\ credit_name (names !! i) name
    /\ credit_id64 (id64s !! i) id64.
Proof.
  intros Hid. unfold Mapper, padded, credit_name, credit_id64.
  destruct (names !! i) as [s|], (id64s !! i) as [t|];
    rewrite ?fix_val_text; try destruct (absent_text s);
    try (destruct (Hid t eq_refl) as [Ht|(z & Hz)];
         [rewrite Ht|destruct (absent_text t); [|simpl; rewrite Hz]]);
    simpl; eauto 8.
Qed.

Lemma collect_mappers_ok names id64s n : forall a acc,
  (forall i, (a <= i < a + n)%nat ->
     exists m, Mapper py_repr (padded names i) (padded id64s i) = Ok m) ->
  (forall i, (i < a + n)%nat ->
     (map VStr names ++ replicate (a + n - length names) VNone) !! i
     = Some (padded names i)) ->
  (forall i, (i < a + n)%nat ->
     (map VStr id64s ++ replicate (a + n - length id64s) VNone) !! i
     = Some (padded id64s i)) ->
  exists ms,
    collect_mappers py_repr (seq a n)
      (Some (map VStr names ++ replicate (a + n - length names) VNone))
      (Some (map VStr id64s ++ replicate (a + n - length id64s) VNone)) acc
    = Ok (acc ++ ms)
    /\ length ms = n
    /\ forall j, (j < n)%nat ->
         exists m, Mapper py_repr (padded names (a + j)) (padded id64s (a + j))
                   = Ok m
                   /\ ms !! j = Some (VDict m).
Proof.
  induction n as [|n IH]; intros a acc Hm Hn Hi.
  - exists []. simpl. rewrite app_nil_r.
    split; [done|]. split; [done|]. intros j Hj. lia.
  - simpl. unfold py_index. rewrite Hn, Hi by lia. simpl.
    destruct (Hm a) as [m Hma]; [lia|]. rewrite Hma. simpl.
    replace (a + S n)%nat with (S a + n)%nat in * by lia.
    destruct (IH (S a) (acc ++ [VDict m])) as (ms & -> & Hlen & Hms).
    + intros i Hi'. apply Hm. lia.
    + done.
    + done.
    + exists (VDict m :: ms). rewrite <- app_assoc. simpl.
      split; [done|]. split; [by rewrite Hlen|].
      intros [|j] Hj.
      * exists m. by rewrite Nat.add_0_r.
      * destruct (Hms j) as (m' & Hm' & Hl); [lia|].
        exists m'. by replace (a + S j)%nat with (S a + j)%nat by lia.
Qed.


(** C2: the end-to-end scenario.  [_fix_maps] on the array holding the one
    scenario record returns normally and leaves exactly the normalised
    record, keys in the order given. *)
Theorem fix_maps_scenario :
  _fix_maps py_repr (Some [Some scenario_record])
  = (Some [Some scenario_normalized], Ok tt).
Proof. reflexivity. Qed.

End NormalizerProperties.

(** [fix_mappers_without_credit_fields] at a record. *)
Lemma fix_mappers_without_credit_fields_witness :
  _fix_mappers opaque_repr (Some [("name", VStr "kz_example")])
  = (Some [("name", VStr "kz_example"); ("mappers", VList [])], Ok tt).
Proof.
  apply (fix_mappers_without_credit_fields opaque_repr
           [("name", VStr "kz_example")]); [discriminate|reflexivity|reflexivity].
Defined.

(** C3 as stated fails: the record [{"id": 5, "name": "kz_example"}] has
    neither credit field and no [mappers]; after [_fix_mappers] it has a
    [mappers] key. *)
Lemma fix_mappers_adds_mappers_key :
  let d := [("id", VInt 5); ("name", VStr "kz_example")] in
  dict_get _MAPPER_NAME_KEY d = None
  /\ dict_get _MAPPER_ID64_KEY d = None
  /\ dict_get _MAPPERS_KEY d = None
  /\ exists d',
       _fix_mappers opaque_repr (Some d) = (Some d', Ok tt)
       /\ dict_get _MAPPERS_KEY d' = Some (VList []).
Proof. repeat split. eexists. split; reflexivity. Qed.

(** [fix_mappers_empty_field_raises] at a record with an empty id list. *)
Lemma fix_mappers_empty_field_raises_witness :
  exists d' e,
    _fix_mappers opaque_repr
      (Some [("mapper_name", VStr "Alice"); ("mapper_steamid64", VStr "")])
    = (Some d', Raise e)
    /\ (e = TypeError \/ e = AttributeError)
    /\ dict_get _MAPPERS_KEY d' = None.
Proof.
  apply (fix_mappers_empty_field_raises opaque_repr
           [("mapper_name", VStr "Alice"); ("mapper_steamid64", VStr "")]);
    [discriminate|right; reflexivity].
Defined.

(** ** URL fields: the lookup *)

Lemma fix_url_at_run key d :
  fix_url_at key d =
    match dict_get key d with
    | None => (d, Raise KeyError)
    | Some url =>
        match fix_url url with
        | Ok url' => (dict_set key url' d, Ok tt)
        | Raise e => (d, Raise e)
        end
    end.
Proof.
  unfold fix_url_at. run. destruct (dict_get key d) as [url|]; [|done].
  by destruct (fix_url url).
Qed.

(** C7: on a non-empty record without the [workshop_url] key, [_fix_urls]
    raises [KeyError] and leaves the record as it found it; on [None] and
    on the empty record it returns normally and changes nothing. *)
Theorem fix_urls_missing_field :
  (forall d, d <> [] -> dict_get "workshop_url" d = None ->
             _fix_urls (Some d) = (Some d, Raise KeyError))
  /\ _fix_urls None = (None, Ok tt)
  /\ _fix_urls (Some []) = (Some [], Ok tt).
Proof.
  split; [|done]. intros d Hd H. unfold _fix_urls.
  rewrite unless_falsy_run by done. simpl. unfold bind.
  by rewrite fix_url_at_run, H.
Qed.

(** ** Integer fields *)

Lemma fix_type_at_run key d :
  fix_type_at key d =
    match dict_get key d with
    | None => (d, Ok tt)
    | Some val =>
        if truthy val then
          match py_int val with
          | Ok n => (dict_set key n d, Ok tt)
          | Raise e => (d, Raise e)
          end
        else (d, Ok tt)
    end.
Proof.
  unfold fix_type_at. run. destruct (dict_get key d) as [val|]; simpl; [|done].
  destruct (truthy val); simpl; [|done]. by destruct (py_int val).
Qed.

Lemma py_int_raises v e :
  py_int v = Raise e -> e = ValueError \/ e = TypeError \/ e = OverflowError.
Proof.
  destruct v as [| | |f|s| |]; simpl; try (intros [= <-]; auto); try done.
  - destruct f; simpl; intros [= <-]; auto.
  - destruct (int_of_str s); intros [= <-]; auto.
Qed.

Lemma py_int_str s : s <> "" -> int_of_str s = None ->
  truthy (VStr s) = true /\ py_int (VStr s) = Raise ValueError.
Proof.
  intros Hs H. simpl. rewrite H. split; [|done].
  apply negb_true_iff. by apply String.eqb_neq.
Qed.

Lemma fix_type_at_frame key k d :
  k <> key \/ settled d k ->
  dict_get k (fst (fix_type_at key d)) = dict_get k d.
Proof.
  intros H. rewrite fix_type_at_run. unfold settled in H.
  destruct (dict_get key d) as [val|] eqn:E; [|done].
  destruct (truthy val) eqn:T; [|done].
  destruct (py_int val) as [n|e]; [|done]. simpl.
  destruct H as [H|H].
  - by apply dict_get_set_ne.
  - destruct (String.eqb k key) eqn:Ek.
    + apply String.eqb_eq in Ek; subst k. rewrite E in H. congruence.
    + apply String.eqb_neq in Ek. by apply dict_get_set_ne.
Qed.

(** The loop of [_fix_types] over any list of keys. *)
Lemma fix_types_frame keys k d :
  ~ In k keys \/ settled d k ->
  dict_get k (fst (for_each keys fix_type_at d)) = dict_get k d.
Proof.
  revert d. induction keys as [|key keys IH]; intros d H; [done|].
  simpl. unfold bind.
  assert (Hstep : dict_get k (fst (fix_type_at key d)) = dict_get k d).
  { apply fix_type_at_frame. destruct H as [H|H]; [left|by right].
    intros ->. apply H. by left. }
  destruct (fix_type_at key d) as [d1 [[]|e]]; simpl in *; [|done].
  rewrite IH; [done|]. destruct H as [H|H].
  - left. intros Hin. apply H. by right.
  - right. unfold settled in *. by rewrite Hstep.
Qed.

Lemma fix_types_returns keys d :
  NoDup keys ->
  (forall key val, In key keys -> dict_get key d = Some val ->
     truthy val = true -> exists n, py_int val = Ok n) ->
  snd (for_each keys fix_type_at d) = Ok tt.
Proof.
  revert d. induction keys as [|key keys IH]; intros d Hnd H; [done|].
  apply NoDup_cons in Hnd as [Hkey Hnd]. simpl. unfold bind.
  assert (Hother : forall k, In k keys ->
            dict_get k (fst (fix_type_at key d)) = dict_get k d).
  { intros k Hk. apply fix_type_at_frame. left. intros ->.
    apply Hkey. by rewrite list_elem_of_In. }
  assert (Hok : snd (fix_type_at key d) = Ok tt).
  { rewrite fix_type_at_run. destruct (dict_get key d) as [val|] eqn:E; [|done].
    destruct (truthy val) eqn:T; [|done].
    destruct (H key val) as [n ->]; try done. by left. }
  destruct (fix_type_at key d) as [d1 r1]; simpl in *; subst r1.
  apply IH; [done|]. intros k val Hk E T.
  apply (H k val); [by right| |done]. by rewrite <- Hother.
Qed.

Lemma fix_types_raises keys k d s :
  In k keys -> dict_get k d = Some (VStr s) -> s <> "" -> int_of_str s = None ->
  exists e, snd (for_each keys fix_type_at d) = Raise e
            /\ (e = ValueError \/ e = TypeError \/ e = OverflowError).
Proof.
  revert d. induction keys as [|key keys IH]; intros d Hin E Hs Hi; [done|].
  destruct (py_int_str s Hs Hi) as [T P].
  simpl. unfold bind. rewrite fix_type_at_run.
  destruct (String.eqb k key) eqn:Ek.
  - apply String.eqb_eq in Ek; subst key. rewrite E, T, P. simpl. eauto.
  - apply String.eqb_neq in Ek.
    destruct Hin as [->|Hin]; [done|].
    destruct (dict_get key d) as [val|] eqn:E'; [|by apply IH].
    destruct (truthy val); [|by apply IH].
    destruct (py_int val) as [n|e] eqn:P'.
    + apply IH; try done. rewrite dict_get_set_ne; [done|]. by intros ->.
    + simpl. eauto using py_int_raises.
Qed.

(** A truthy convertible field is converted once the loop reaches it, and
    the loop reaches it when no field before it raises. *)
Lemma fix_types_converts_at pre k post d val n :
  NoDup (pre ++ k :: post) ->
  (forall key v, In key pre -> dict_get key d = Some v -> truthy v = true ->
     exists m, py_int v = Ok m) ->
  dict_get k d = Some val -> truthy val = true -> py_int val = Ok n ->
  dict_get k (fst (for_each (pre ++ k :: post) fix_type_at d)) = Some n.
Proof.
  revert d. induction pre as [|key pre IH]; intros d Hnd Hpre E T P.
  - apply NoDup_cons in Hnd as [Hk _]. simpl. unfold bind.
    rewrite fix_type_at_run, E, T, P.
    rewrite fix_types_frame; [by apply dict_get_set_eq|].
    left. by rewrite <- list_elem_of_In.
  - simpl in Hnd. apply NoDup_cons in Hnd as [Hkey Hnd].
    assert (Hother : forall k', k' <> key ->
              dict_get k' (fst (fix_type_at key d)) = dict_get k' d)
      by (intros k' Hk'; apply fix_type_at_frame; by left).
    assert (Hok : snd (fix_type_at key d) = Ok tt).
    { rewrite fix_type_at_run. destruct (dict_get key d) as [v|] eqn:Ev; [|done].
      destruct (truthy v) eqn:Tv; [|done].
      destruct (Hpre key v) as [m ->]; try done. by left. }
    simpl. unfold bind.
    destruct (fix_type_at key d) as [d1 r1]; simpl in *; subst r1.
    assert (Hne : forall k', In k' (pre ++ k :: post) -> k' <> key).
    { intros k' Hin ->. apply Hkey. by rewrite list_elem_of_In. }
    apply IH; try done.
    + intros k' v Hin. rewrite Hother.
      * apply Hpre. by right.
      * apply Hne. apply in_or_app. by left.
    + rewrite Hother; [done|]. apply Hne. apply in_or_app. right. by left.
Qed.

Lemma INT_KEYS_NoDup : NoDup _INT_KEYS.
Proof. repeat constructor; rewrite list_elem_of_In; simpl; intuition discriminate. Qed.



(** ** The construction rule of a credit *)

Lemma eq_str_true v s : eq_str v s = true <-> v = VStr s.
Proof.
  destruct v; simpl; try (split; [discriminate|done]).
  rewrite String.eqb_eq. split; congruence.
Qed.

Lemma meaningful_test raw :
  (truthy raw && negb (eq_str raw "null") = true <-> meaningful raw)
  /\ (truthy raw && negb (eq_str raw "null") = false
      <-> truthy raw = false \/ raw = VStr "null").
Proof.
  unfold meaningful. pose proof (eq_str_true raw "null") as H.
  destruct (truthy raw), (eq_str raw "null"); simpl; intuition congruence.
Qed.

Lemma fix_val_meaningful raw type :
  meaningful raw -> __fix_val raw type = type raw.
Proof. intros H. unfold __fix_val. apply meaningful_test in H. by rewrite H. Qed.

Lemma fix_val_absent raw type :
  truthy raw = false \/ raw = VStr "null" -> __fix_val raw type = Ok VNone.
Proof. intros H. unfold __fix_val. apply meaningful_test in H. by rewrite H. Qed.

Lemma meaningful_dec raw :
  meaningful raw \/ (truthy raw = false \/ raw = VStr "null").
Proof.
  destruct (truthy raw && negb (eq_str raw "null")) eqn:E.
  - left. by apply meaningful_test.
  - right. by apply meaningful_test.
Qed.

Lemma meaningful_not raw :
  ~ meaningful raw <-> truthy raw = false \/ raw = VStr "null".
Proof.
  unfold meaningful. split.
  - intros H. destruct (meaningful_dec raw) as [H'|H']; [by destruct H|done].
  - intros [H|H] [H1 H2]; congruence.
Qed.

Section CreditProperties.

Variable py_repr : value -> string.

Lemma py_int_not_none v : py_int v <> Ok VNone.
Proof.
  destruct v as [| | |f|s| |]; simpl; try done.
  - by destruct (int_of_float f).
  - by destruct (int_of_str s).
Qed.

(** C5: the construction rule.  [__fix_val] gives [None] for a raw value
    that is falsy or equal to the text [null], and the value coerced by the
    target type for every other one.  A credit built by [Mapper] therefore
    has an absent [name] (an absent [id64]) exactly when the raw name (the
    raw id) is falsy or [null], and otherwise holds [str] of the raw name
    ([int] of the raw id); the construction raises exactly when the raw id
    is kept and [int] raises on it. *)
Theorem Mapper_construction_rule :
  (forall raw type,
     (truthy raw = false \/ raw = VStr "null" -> __fix_val raw type = Ok VNone)
     /\ (meaningful raw -> __fix_val raw type = type raw))
  /\ forall name id64,
       match Mapper py_repr name id64 with
       | Ok self =>
           (Mapper_name self = Ok VNone
            <-> truthy name = false \/ name = VStr "null")
           /\ (Mapper_id64 self = Ok VNone
               <-> truthy id64 = false \/ id64 = VStr "null")
           /\ (meaningful name -> Mapper_name self = py_str py_repr name)
           /\ (meaningful id64 -> Mapper_id64 self = py_int id64)
       | Raise e => meaningful id64 /\ py_int id64 = Raise e
       end.
Proof.
  split.
  { intros raw type. split; [apply fix_val_absent|apply fix_val_meaningful]. }
  intros name id64. unfold Mapper.
  destruct (meaningful_dec name) as [Hn|Hn], (meaningful_dec id64) as [Hi|Hi];
    rewrite ?(fix_val_meaningful _ _ Hn), ?(fix_val_absent _ _ Hn),
            ?(fix_val_meaningful _ _ Hi), ?(fix_val_absent _ _ Hi);
    simpl; try (destruct (py_int id64) as [i|e] eqn:Ei; simpl; [|done]);
    rewrite <- !meaningful_not; unfold Mapper_name, Mapper_id64; simpl;
    repeat split; try done; try tauto;
    try (intros [= ->]; by destruct (py_int_not_none id64));
    try (intros H; exfalso; apply H; done);
    try (intros _; by apply meaningful_not);
    try (intros H; exfalso; revert H; by apply meaningful_not).
Qed.

End CreditProperties.

(** ** The fetcher *)

Section FetcherProperties.

Variable server : list string -> string -> result Response.
Variable json_loads : string -> result value.

Lemma get_url_response_run u sent :
  u <> "" ->
  _get_url_response server (Some u) sent =
    (u :: sent,
     match server sent u with
     | Raise e => Raise e
     | Ok response =>
         match raise_for_status response with
         | Raise e => Raise e
         | Ok _ =>
             if status_code response =? 204 then Ok None else Ok (Some response)
         end
     end).
Proof.
  intros Hu. destruct u as [|c u]; [done|].
  unfold _get_url_response, requests_get. run.
  destruct (server sent (String c u)) as [response|e]; [|done].
  destruct (raise_for_status response); [|done].
  by destruct (status_code response =? 204).
Qed.

(** C8, as the code has it.  With no URL ([None] or the empty string) the
    fetch returns [None] and sends nothing.  Otherwise it sends one request;
    when a response arrives, a 4xx or 5xx status raises [HTTPError], status
    204 returns [None], and any other status returns the parsed body (or
    raises what the parser raises).  [_get_url_response] returns [None] in
    the two cases named and in no other. *)
Theorem get_url_json_outcomes sent :
  _get_url_json server json_loads None sent = (sent, Ok None)
  /\ _get_url_json server json_loads (Some "") sent = (sent, Ok None)
  /\ (forall u response, u <> "" -> server sent u = Ok response ->
        let status := status_code response in
        _get_url_json server json_loads (Some u) sent =
          (u :: sent,
           if (400 <=? status) && (status <? 600) then Raise HTTPError
           else if status =? 204 then Ok None
           else match json_loads (text response) with
                | Ok body => Ok (Some body)
                | Raise e => Raise e
                end))
  /\ (forall u e, u <> "" -> server sent u = Raise e ->
        _get_url_json server json_loads (Some u) sent = (u :: sent, Raise e))
  /\ (forall url sent',
        _get_url_response server url sent = (sent', Ok None) <->
        (url = None \/ url = Some "") /\ sent' = sent
        \/ exists u response,
             url = Some u /\ u <> "" /\ sent' = u :: sent
             /\ server sent u = Ok response /\ status_code response = 204).
Proof.
  split; [done|]. split; [done|]. split; [|split].
  - intros u response Hu Hs. unfold _get_url_json. unfold bind at 1.
    rewrite get_url_response_run by done. rewrite Hs.
    unfold raise_for_status.
    destruct ((400 <=? status_code response) && (status_code response <? 600));
      simpl; [done|].
    destruct (status_code response =? 204); [done|].
    run. by destruct (json_loads (text response)).
  - intros u e Hu Hs. unfold _get_url_json. unfold bind at 1.
    rewrite get_url_response_run by done. by rewrite Hs.
  - intros url sent'. split.
    + destruct url as [u|]; [|intros [= <-]; left; auto].
      destruct (String.eqb u "") eqn:Eu.
      { apply String.eqb_eq in Eu; subst u. intros [= <-]. left; auto. }
      apply String.eqb_neq in Eu. rewrite get_url_response_run by done.
      intros [= <- H]. right. exists u.
      destruct (server sent u) as [response|e]; [|done].
      exists response. repeat split; try done.
      destruct (raise_for_status response); [|done].
      destruct (status_code response =? 204) eqn:E; [|done].
      by apply Z.eqb_eq.
    + intros [[[->| ->] ->]|(u & response & -> & Hu & -> & Hs & H204)]; try done.
      rewrite get_url_response_run by done. rewrite Hs.
      unfold raise_for_status. by rewrite H204.
Qed.

End FetcherProperties.

(** C8 as stated fails: status 300 is no success status and is not 204, yet
    the fetch raises nothing and returns the parsed body. *)
Lemma get_url_json_status_300 :
  _get_url_json server_300 loads_empty_array
    (Some "https://raw.githubusercontent.com/zer0k-z/kz-map-info/master/MapsWithMappers.json") []
  = (["https://raw.githubusercontent.com/zer0k-z/kz-map-info/master/MapsWithMappers.json"],
     Ok (Some (VList []))).
Proof. reflexivity. Qed.

(** ** The writer *)

Section WriterProperties.

Variable encode_escape decode_escape : string -> string.
Variable normpath basename dirname : string -> string.
Variable splitext : string -> string * string.
Variable join : string -> string -> string.
Variable json_dumps : value -> option Z -> option (string * string) -> result string.
Variable fs : Type.
Variable path_exists : string -> fs -> bool.
Variable makedirs open_w : string -> M fs unit.
Variable write_close : string -> string -> M fs unit.

Local Abbreviation dump_json :=
  (_dump_json encode_escape decode_escape normpath basename dirname splitext
     join json_dumps fs path_exists makedirs open_w write_close).
Local Abbreviation write :=
  (write_dump encode_escape decode_escape json_dumps fs open_w write_close).
Local Abbreviation both :=
  (dump_both encode_escape decode_escape join json_dumps fs path_exists
     makedirs open_w write_close).
Local Abbreviation dump_target := (dump_target normpath basename dirname splitext).
Local Abbreviation nothing_to_dump := (nothing_to_dump normpath).
Local Abbreviation file_written :=
  (file_written encode_escape decode_escape json_dumps fs open_w write_close).

Lemma write_dump_ok path json_object indent separators st st' :
  write path json_object indent separators st = (st', Ok tt) <->
  file_written path json_object indent separators st st'.
Proof.
  unfold write_dump, file_written. run. split.
  - destruct (open_w path st) as [st1 [[]|e]]; [|done].
    destruct (json_dumps json_object indent separators) as [dumped|e]; [|done].
    destruct (_unescape _ _ (Some dumped)) as [out|] eqn:E; [|done].
    intros H. by exists st1, dumped, out.
  - intros (st1 & dumped & out & -> & -> & -> & H). done.
Qed.

Lemma dump_both_outcomes dir name json_object st :
  (exists e st', both dir name json_object st = (st', Raise e))
  \/ exists st1 st2 st3,
       ensure_directory fs path_exists makedirs dir st = (st1, Ok tt)
       /\ file_written (join dir name ++ _DUMP_JSON_FILE_EXT) json_object
            (Some _JSON_INDENT) None st1 st2
       /\ file_written (join dir name ++ _DUMP_JSON_FILE_MIN_EXT) json_object
            None (Some _JSON_SEPARATORS) st2 st3
       /\ both dir name json_object st = (st3, Ok true).
Proof.
  unfold dump_both, bind.
  destruct (ensure_directory _ _ _ dir st) as [st1 [[]|e]] eqn:H1;
    [|left; eauto].
  destruct (write_dump _ _ _ _ _ _ _ _ (Some _JSON_INDENT) _ st1)
    as [st2 [[]|e]] eqn:H2; [|left; eauto].
  destruct (write_dump _ _ _ _ _ _ _ _ None _ st2)
    as [st3 [[]|e]] eqn:H3; [|left; eauto].
  right. exists st1, st2, st3. by rewrite <- !write_dump_ok.
Qed.

Lemma dump_json_run p file_name json_object st :
  ~ nothing_to_dump (Some p) file_name json_object ->
  dump_json (Some p) file_name json_object st =
    both (fst (dump_target p file_name)) (snd (dump_target p file_name))
      json_object st.
Proof.
  intros H. unfold _dump_json, dump_target.
  destruct (truthy json_object) eqn:T;
    [|destruct H; right; by left]. simpl.
  destruct file_name as [[|c n]|]; simpl; try done;
    (destruct (String.eqb (normpath p) "") eqn:E; simpl; [|done]);
    apply String.eqb_eq in E; destruct H; right; right; exists p; auto.
Qed.


End WriterProperties.

(** ** Replacing the first occurrence *)

Lemma replace_first_unfold old new s :
  replace_first old new s =
    if starts_with old s then (new ++ drop_str (String.length old) s)%string
    else
      match s with
      | EmptyString => EmptyString
      | String c s' => String c (replace_first old new s')
      end.
Proof. by destruct s. Qed.

Lemma starts_with_split old s :
  starts_with old s = true -> s = (old ++ drop_str (String.length old) s)%string.
Proof.
  revert s. induction old as [|a old IH]; intros s; [done|].
  destruct s as [|b s]; simpl; [done|]. intros H.
  apply andb_true_iff in H as [Hab H]. apply Ascii.eqb_eq in Hab. subst b.
  f_equal. by apply IH.
Qed.

Lemma occurrences_cons old c s :
  occurrences old (String c s)
  = ((if starts_with old (String c s) then 1 else 0) + occurrences old s)%nat.
Proof. done. Qed.

(** Without an occurrence there is nothing to replace. *)
Lemma replace_first_none old new s :
  occurrences old s = 0%nat -> replace_first old new s = s.
Proof.
  induction s as [|c s IH]; rewrite replace_first_unfold.
  - simpl. by destruct (starts_with old "").
  - rewrite occurrences_cons. destruct (starts_with old (String c s)); [done|].
    simpl. intros H. by rewrite IH.
Qed.

(** A pattern [q] that does not mention the first character of [new]
    cannot start in the replaced string where it did not start before. *)
Lemma starts_with_replaced old n0 new q : forall s,
  has_char n0 q = false ->
  starts_with q (replace_first old (String n0 new) s) = true ->
  starts_with q s = true.
Proof.
  induction q as [|a q IH]; intros s Hq; [done|].
  simpl in Hq. apply orb_false_iff in Hq as [Ha Hq].
  rewrite replace_first_unfold.
  destruct (starts_with old s).
  - simpl. by rewrite Ha.
  - destruct s as [|c s]; [done|]. simpl.
    intros H. apply andb_true_iff in H as [Hac H].
    by rewrite Hac, (IH s Hq H).
Qed.

(** Replacing the first [old] creates no occurrence of a pattern [a q]
    when [q] does not mention the first character of [new] and [new] in
    place of [old] holds no more occurrences than [old] did. *)
Lemma occurrences_replaced old n0 new a q s :
  has_char n0 q = false ->
  (forall t, occurrences (String a q) (String n0 new ++ t)%string
             <= occurrences (String a q) (old ++ t)%string)%nat ->
  (occurrences (String a q) (replace_first old (String n0 new) s)
   <= occurrences (String a q) s)%nat.
Proof.
  intros Hq Hbase. induction s as [|c s IH]; rewrite replace_first_unfold.
  - destruct (starts_with old "") eqn:E; [|done].
    rewrite (starts_with_split _ _ E) at 2. apply Hbase.
  - destruct (starts_with old (String c s)) eqn:E.
    + rewrite (starts_with_split _ _ E) at 2. apply Hbase.
    + rewrite !occurrences_cons.
      assert (Hw : starts_with (String a q)
                     (String c (replace_first old (String n0 new) s)) = true ->
                   starts_with (String a q) (String c s) = true).
      { simpl. intros H. apply andb_true_iff in H as [Hac H].
        by rewrite Hac, (starts_with_replaced _ _ _ _ _ Hq H). }
      destruct (starts_with (String a q)
                  (String c (replace_first old (String n0 new) s)));
        [rewrite Hw by done|]; lia.
Qed.

(** Replacing the first [old] removes one occurrence of [old] itself under
    the same two conditions. *)
Lemma occurrences_replaced_self o0 old n0 new s :
  has_char n0 old = false ->
  (forall t, occurrences (String o0 old) (String n0 new ++ t)%string
             <= pred (occurrences (String o0 old) (String o0 old ++ t)%string))%nat ->
  (occurrences (String o0 old) (replace_first (String o0 old) (String n0 new) s)
   <= pred (occurrences (String o0 old) s))%nat.
Proof.
  intros Hq Hbase. induction s as [|c s IH]; rewrite replace_first_unfold.
  - done.
  - destruct (starts_with (String o0 old) (String c s)) eqn:E.
    + rewrite (starts_with_split _ _ E) at 2. apply Hbase.
    + rewrite !occurrences_cons. rewrite E.
      destruct (starts_with (String o0 old)
                  (String c (replace_first (String o0 old) (String n0 new) s)))
        eqn:E'; [|simpl; lia].
      simpl in E'. apply andb_true_iff in E' as [Hac H].
      apply (starts_with_replaced _ _ _ _ _ Hq) in H.
      simpl in E. by rewrite Hac, H in E.
Qed.

(** ** The two rewrites of a URL *)

Lemma https_scheme s :
  (occurrences "http://" (https s) <= pred (occurrences "http://" s))%nat.
Proof.
  apply occurrences_replaced_self; [done|]. intros t. simpl. lia.
Qed.

Lemma https_query s :
  (occurrences "/?" (https s) <= occurrences "/?" s)%nat.
Proof. apply occurrences_replaced; [done|]. intros t. simpl. lia. Qed.

Lemma https_double_slash s :
  (occurrences "//?" (https s) <= occurrences "//?" s)%nat.
Proof. apply occurrences_replaced; [done|]. intros t. simpl. lia. Qed.

Lemma unslash_scheme s :
  (occurrences "http://" (unslash s) <= occurrences "http://" s)%nat.
Proof. apply occurrences_replaced; [done|]. intros t. simpl. lia. Qed.

(** Dropping the slash of the first ["/?"] leaves no ["/?"] behind when
    there was one at most and no ["//?"]. *)
Lemma unslash_query s :
  (occurrences "/?" s <= 1)%nat -> occurrences "//?" s = 0%nat ->
  occurrences "/?" (unslash s) = 0%nat.
Proof.
  unfold unslash. induction s as [|c s IH]; [done|].
  rewrite replace_first_unfold.
  destruct (starts_with "/?" (String c s)) eqn:E.
  - rewrite (starts_with_split _ _ E).
    generalize (drop_str (String.length "/?") (String c s)). intros t.
    simpl. lia.
  - rewrite !occurrences_cons, E. intros H1 H2.
    rewrite IH by lia.
    destruct (starts_with "/?" (String c (replace_first "/?" "?" s))) eqn:E';
      [|done].
    exfalso. simpl in E'. apply andb_true_iff in E' as [Hc H].
    rewrite replace_first_unfold in H.
    destruct (starts_with "/?" s) eqn:Es.
    + assert (starts_with "//?" (String c s) = true) as Hd
        by (simpl; by rewrite Hc).
      rewrite Hd in H2. lia.
    + destruct s as [|c' s]; [done|]. simpl in H, E. by rewrite Hc, H in E.
Qed.

(** The rewrite of a URL is a fixed point of itself on a URL with at most
    one ["http://"], at most one ["/?"] and no ["//?"]. *)
Lemma fix_url_twice u :
  (occurrences "http://" u <= 1)%nat ->
  (occurrences "/?" u <= 1)%nat ->
  occurrences "//?" u = 0%nat ->
  https (unslash (https u)) = unslash (https u)
  /\ unslash (unslash (https u)) = unslash (https u).
Proof.
  intros Hp Hq Hd.
  pose proof (https_scheme u). pose proof (https_query u).
  pose proof (https_double_slash u).
  pose proof (unslash_scheme (https u)).
  pose proof (unslash_query (https u)).
  split; apply replace_first_none; lia.
Qed.

Lemma fix_urls_run d u :
  dict_get "workshop_url" d = Some (VStr u) ->
  _fix_urls (Some d)
  = (Some (dict_set "workshop_url" (VStr (unslash (https u))) d), Ok tt).
Proof.
  intros H. assert (Hd : d <> []) by (by destruct d).
  unfold _fix_urls. rewrite unless_falsy_run by done.
  simpl. unfold bind. by rewrite fix_url_at_run, H.
Qed.

(** C4, as the code has it: on a record whose [workshop_url] is a string
    with at most one ["http://"], at most one ["/?"] and no ["//?"],
    [_fix_urls] returns normally, and run again on the record it left it
    returns normally and changes nothing. *)
Theorem fix_urls_idempotent d u :
  dict_get "workshop_url" d = Some (VStr u) ->
  (occurrences "http://" u <= 1)%nat ->
  (occurrences "/?" u <= 1)%nat ->
  occurrences "//?" u = 0%nat ->
  exists d1,
    _fix_urls (Some d) = (Some d1, Ok tt)
    /\ _fix_urls (Some d1) = (Some d1, Ok tt).
Proof.
  intros H Hp Hq Hd. eexists. split; [by apply fix_urls_run|].
  rewrite (fix_urls_run _ (unslash (https u))) by apply dict_get_set_eq.
  destruct (fix_url_twice u Hp Hq Hd) as [-> ->].
  by rewrite dict_set_set.
Qed.

(** [fix_urls_idempotent] at the record of the scenario. *)
Lemma fix_urls_idempotent_witness :
  exists d1,
    _fix_urls (Some scenario_record) = (Some d1, Ok tt)
    /\ _fix_urls (Some d1) = (Some d1, Ok tt).
Proof.
  apply (fix_urls_idempotent scenario_record "http://x/?id=5");
    [reflexivity|simpl; lia|simpl; lia|reflexivity].
Defined.

(** C4 as stated fails: on a URL that carries a second URL in its query,
    the second run rewrites what the first run left. *)
Lemma fix_urls_twice_differs :
  let d := [("workshop_url", VStr "http://x/?next=http://y/?id=5")] in
  let once := [("workshop_url", VStr "https://x?next=http://y/?id=5")] in
  let twice := [("workshop_url", VStr "https://x?next=https://y?id=5")] in
  _fix_urls (Some d) = (Some once, Ok tt)
  /\ _fix_urls (Some once) = (Some twice, Ok tt)
  /\ once <> twice.
Proof. repeat split; discriminate. Qed.



(* ===================================================================== *)
(** * Further properties                                                  *)
(* ===================================================================== *)

(** ** [_norm_list] *)

(** X1: for a list and a size that is not negative, [_norm_list] leaves a
    list of exactly [size] elements: the elements the list had at the same
    places, and [None] at every place past its end. *)
Theorem norm_list_exact (vs : list value) (size : Z) :
  0 <= size ->
  exists vs',
    _norm_list (Some vs) (Some size) = Some vs'
    /\ Z.of_nat (length vs') = size
    /\ forall i, (i < length vs')%nat ->
         vs' !! i = Some (match vs !! i with Some v => v | None => VNone end).
Proof.
  intros Hsize. unfold _norm_list.
  destruct (size <? 0) eqn:E0; [lia|].
  destruct (Z.of_nat (length vs) >? size) eqn:E.
  - eexists. split; [done|]. rewrite length_take. split; [lia|].
    intros i Hi. rewrite lookup_take_lt by lia.
    destruct (vs !! i) eqn:Ei; [done|].
    apply lookup_ge_None in Ei. lia.
  - eexists. split; [done|]. rewrite length_app, length_replicate.
    split; [lia|]. intros i Hi.
    destruct (vs !! i) eqn:Ei.
    + rewrite lookup_app_l; [done|]. by apply lookup_lt_Some in Ei.
    + apply lookup_ge_None in Ei. rewrite lookup_app_r by done.
      apply lookup_replicate_2. lia.
Qed.

(** [norm_list_exact] on a list of two names and size three. *)
Lemma norm_list_exact_witness :
  exists vs',
    _norm_list (Some [VStr "Alice"; VStr "Bob"]) (Some 3) = Some vs'
    /\ Z.of_nat (length vs') = 3.
Proof.
  destruct (norm_list_exact [VStr "Alice"; VStr "Bob"] 3) as (vs' & H1 & H2 & _);
    [lia|]. by exists vs'.
Defined.

(** X2: [_norm_list] is idempotent, for every list or [None] and every
    size or [None]: a second call with the same size changes nothing. *)
Theorem norm_list_idempotent values size :
  _norm_list (_norm_list values size) size = _norm_list values size.
Proof.
  destruct values as [vs|], size as [size|]; try done.
  destruct (Z.ltb_spec size 0) as [Hneg|Hpos].
  - unfold _norm_list. by destruct (size <? 0) eqn:E; [|lia].
  - destruct (norm_list_exact vs size Hpos) as (vs' & -> & Hlen & _).
    unfold _norm_list. destruct (size <? 0) eqn:E0; [lia|].
    destruct (Z.of_nat (length vs') >? size) eqn:E; [lia|].
    replace (size - Z.of_nat (length vs')) with 0 by lia.
    simpl. by rewrite app_nil_r.
Qed.

(** ** [_str_to_list] *)

Lemma split_from_unfold sep k c s :
  split_from sep k (String c s) =
    match k with
    | S k' => split_from sep k' s
    | O =>
        if starts_with sep (String c s)
        then EmptyString :: split_from sep (String.length sep - 1) s
        else
          match split_from sep 0 s with
          | p :: ps => String c p :: ps
          | [] => [String c EmptyString]
          end
    end.
Proof. done. Qed.

Lemma split_from_nonempty sep k s : split_from sep k s <> [].
Proof.
  revert k. induction s as [|c s IH]; intros k; [done|].
  rewrite split_from_unfold. destruct k as [|k]; [|apply IH].
  destruct (starts_with sep (String c s)); [done|].
  by destruct (split_from sep 0 s).
Qed.

Lemma join_str_cons sep p ps :
  ps <> [] -> join_str sep (p :: ps) = (p ++ sep ++ join_str sep ps)%string.
Proof. by destruct ps. Qed.

Lemma join_str_push sep c p ps :
  join_str sep (String c p :: ps) = String c (join_str sep (p :: ps)).
Proof. by destruct ps. Qed.

(** Joining the pieces gives back what was split: the text past the
    characters still to be skipped. *)
Lemma join_split_from a sep s : forall k,
  join_str (String a sep) (split_from (String a sep) k s) = drop_str k s.
Proof.
  induction s as [|c s IH]; intros k; [by destruct k|].
  rewrite split_from_unfold. destruct k as [|k]; [|apply IH].
  destruct (starts_with (String a sep) (String c s)) eqn:E.
  - rewrite join_str_cons by apply split_from_nonempty.
    rewrite IH. pose proof (starts_with_split _ _ E) as H.
    simpl in *. by rewrite Nat.sub_0_r.
  - pose proof (split_from_nonempty (String a sep) 0 s) as Hne.
    specialize (IH 0%nat). destruct (split_from (String a sep) 0 s) as [|p ps];
      [done|].
    rewrite join_str_push, IH. done.
Qed.

Lemma starts_with_app q x y :
  starts_with q x = true -> starts_with q (x ++ y) = true.
Proof.
  revert x. induction q as [|a q IH]; intros x; [done|].
  destruct x as [|b x]; simpl; [done|].
  intros H. apply andb_true_iff in H as [-> H]. by rewrite IH.
Qed.

Lemma join_str_head sep p ps :
  exists t, join_str sep (p :: ps) = (p ++ t)%string.
Proof.
  destruct ps as [|p' ps].
  - exists EmptyString. simpl. induction p; simpl; congruence.
  - by eexists.
Qed.

(** No piece holds the separator. *)
Lemma split_from_clean a sep s : forall k,
  Forall (fun p => occurrences (String a sep) p = 0%nat)
    (split_from (String a sep) k s).
Proof.
  induction s as [|c s IH]; intros k.
  - by constructor.
  - rewrite split_from_unfold. destruct k as [|k]; [|apply IH].
    destruct (starts_with (String a sep) (String c s)) eqn:E.
    + constructor; [done|apply IH].
    + pose proof (join_split_from a sep s 0) as Hjoin.
      pose proof (split_from_nonempty (String a sep) 0 s) as Hne.
      specialize (IH 0%nat).
      destruct (split_from (String a sep) 0 s) as [|p ps]; [done|].
      apply Forall_cons in IH as [Hp Hps]. constructor; [|done].
      rewrite occurrences_cons, Hp.
      destruct (starts_with (String a sep) (String c p)) eqn:E'; [|done].
      destruct (join_str_head (String a sep) p ps) as [t Ht].
      rewrite Ht in Hjoin. simpl in Hjoin. subst s.
      apply (starts_with_app _ _ t) in E'. simpl in E', E. congruence.
Qed.

(** X3: for a non-empty string and a non-empty separator [_str_to_list]
    returns a list of at least one piece, and joining the pieces with the
    separator gives the string back. *)
Theorem str_to_list_join s sep :
  s <> "" -> sep <> "" ->
  exists pieces,
    _str_to_list (VStr s) (Some sep) = Ok (Some (map VStr pieces))
    /\ pieces <> []
    /\ join_str sep pieces = s.
Proof.
  intros Hs Hsep. exists (split_from sep 0 s).
  unfold _str_to_list. simpl.
  apply String.eqb_neq in Hs. rewrite Hs. simpl.
  destruct sep as [|a sep]; [done|]. simpl.
  split; [done|]. split; [apply split_from_nonempty|apply join_split_from].
Qed.

(** [str_to_list_join] on two names. *)
Lemma str_to_list_join_witness :
  exists pieces,
    _str_to_list (VStr "Alice, Bob") (Some ", ") = Ok (Some (map VStr pieces))
    /\ pieces <> []
    /\ join_str ", " pieces = "Alice, Bob".
Proof. apply (str_to_list_join "Alice, Bob" ", "); discriminate. Defined.

(** X4: for a non-empty string and a non-empty separator, no piece that
    [_str_to_list] returns contains the separator. *)
Theorem str_to_list_clean s sep :
  s <> "" -> sep <> "" ->
  exists pieces,
    _str_to_list (VStr s) (Some sep) = Ok (Some (map VStr pieces))
    /\ Forall (fun p => occurrences sep p = 0%nat) pieces.
Proof.
  intros Hs Hsep. exists (split_from sep 0 s).
  unfold _str_to_list. simpl.
  apply String.eqb_neq in Hs. rewrite Hs. simpl.
  destruct sep as [|a sep]; [done|]. simpl.
  split; [done|apply split_from_clean].
Qed.

(** [str_to_list_clean] on two names. *)
Lemma str_to_list_clean_witness :
  exists pieces,
    _str_to_list (VStr "Alice, Bob") (Some ", ") = Ok (Some (map VStr pieces))
    /\ Forall (fun p => occurrences ", " p = 0%nat) pieces.
Proof. apply (str_to_list_clean "Alice, Bob" ", "); discriminate. Defined.

(** ** [Mapper] and [_fix_mappers] *)

Lemma py_int_ok v i : py_int v = Ok i -> exists z, i = VInt z.
Proof.
  destruct v as [| | |f|s| |]; simpl; try done; try (intros [= <-]; eauto).
  - destruct (int_of_float f); [intros [= <-]; eauto|done].
  - destruct (int_of_str s); [intros [= <-]; eauto|done].
Qed.

Lemma take_delimited_frame key k d :
  k <> key ->
  dict_get k (fst (take_delimited key d)) = dict_get k d.
Proof.
  intros Hk.
  destruct (take_delimited_cases key d) as [(xs & -> & _)|[(xs & ->)| ->]];
    simpl; try done.
  apply dict_get_del_ne. congruence.
Qed.

(** What a delimited field was when reading it gave a list. *)
Lemma take_delimited_list key d d1 xs :
  take_delimited key d = (d1, Ok (Some xs)) ->
  delimited d key /\ d1 = dict_del key d /\ xs = map VStr (substrings d key).
Proof.
  unfold delimited, substrings.
  destruct (dict_get key d) as [v|] eqn:E.
  - destruct (truthy v) eqn:T.
    + destruct v; try (rewrite (take_delimited_other _ _ _ E T); done).
      assert (Hs : s <> "") by (intros ->; done).
      rewrite (take_delimited_str _ _ _ E Hs). intros [= <- <-]. eauto 6.
    + rewrite (take_delimited_falsy _ _ _ E T). done.
  - rewrite (take_delimited_absent _ _ E). intros [= <- <-].
    rewrite dict_del_absent by done. auto.
Qed.

Section MapperProperties.

Variable py_repr : value -> string.

(** X5: a credit that [Mapper] builds holds exactly the keys [name] and
    [id64], in this order; the name is [None] or a string, the id is
    [None] or an integer. *)
Theorem Mapper_shape name id64 self :
  Mapper py_repr name id64 = Ok self ->
  exists n i,
    self = [("name", n); ("id64", i)]
    /\ (n = VNone \/ exists s, n = VStr s)
    /\ (i = VNone \/ exists z, i = VInt z).
Proof.
  unfold Mapper, __fix_val, py_str.
  destruct (truthy name && negb (eq_str name "null"));
    destruct (truthy id64 && negb (eq_str id64 "null")); simpl;
    try (destruct (py_int id64) as [i|e] eqn:Ei; simpl; [|done];
         destruct (py_int_ok _ _ Ei) as [z ->]);
    intros [= <-]; eauto 10.
Qed.

Lemma collect_mappers_inv n : forall a names id64s acc res,
  collect_mappers py_repr (seq a n) (Some names) (Some id64s) acc = Ok res ->
  exists ms,
    res = acc ++ ms
    /\ length ms = n
    /\ forall j, (j < n)%nat ->
         exists x y m,
           names !! (a + j)%nat = Some x /\ id64s !! (a + j)%nat = Some y
           /\ Mapper py_repr x y = Ok m /\ ms !! j = Some (VDict m).
Proof.
  induction n as [|n IH]; intros a names id64s acc res.
  - simpl. intros [= <-]. exists []. rewrite app_nil_r.
    split; [done|]. split; [done|]. intros j Hj. lia.
  - simpl. unfold py_index.
    destruct (names !! a) as [x|] eqn:Ex; [|done].
    destruct (id64s !! a) as [y|] eqn:Ey; [|done]. simpl.
    destruct (Mapper py_repr x y) as [m|e] eqn:Em; [|done]. simpl.
    intros H. destruct (IH _ _ _ _ _ H) as (ms & -> & Hlen & Hms).
    exists (VDict m :: ms). rewrite <- app_assoc.
    split; [done|]. split; [simpl; by rewrite Hlen|].
    intros [|j] Hj.
    + rewrite Nat.add_0_r. by exists x, y, m.
    + destruct (Hms j) as (x' & y' & m' & H1 & H2 & H3 & H4); [lia|].
      exists x', y', m'. by replace (a + S j)%nat with (S a + j)%nat by lia.
Qed.

(** A normal return of [_fix_mappers], taken apart. *)
Lemma fix_mappers_ok_inv d d' :
  d <> [] ->
  _fix_mappers py_repr (Some d) = (Some d', Ok tt) ->
  let names := substrings d _MAPPER_NAME_KEY in
  let id64s := substrings d _MAPPER_ID64_KEY in
  delimited d _MAPPER_NAME_KEY /\ delimited d _MAPPER_ID64_KEY
  /\ exists ms,
       d' = dict_set _MAPPERS_KEY (VList ms)
              (dict_del _MAPPER_ID64_KEY (dict_del _MAPPER_NAME_KEY d))
       /\ length ms = Nat.max (length names) (length id64s)
       /\ forall i, (i < length ms)%nat ->
            exists m, Mapper py_repr (padded names i) (padded id64s i) = Ok m
                      /\ ms !! i = Some (VDict m).
Proof.
  intros Hd H names id64s. rewrite fix_mappers_run in H by done.
  destruct (take_delimited _MAPPER_NAME_KEY d) as [d1 [xs|e]] eqn:E1; [|done].
  destruct (take_delimited _MAPPER_ID64_KEY d1) as [d2 [ys|e]] eqn:E2; [|done].
  destruct xs as [xs|]; [|done]. destruct ys as [ys|]; [|done].
  apply take_delimited_list in E1 as (Hn & -> & ->).
  apply take_delimited_list in E2 as (Hi & -> & ->).
  assert (Hsub : substrings (dict_del _MAPPER_NAME_KEY d) _MAPPER_ID64_KEY
                 = id64s)
    by (unfold id64s, substrings; by rewrite dict_get_del_ne).
  assert (Hi' : delimited d _MAPPER_ID64_KEY)
    by (unfold delimited in *; by rewrite dict_get_del_ne in Hi).
  rewrite Hsub in H. clear Hsub Hi. change (substrings d _MAPPER_NAME_KEY)
    with names in H.
  simpl py_len in H. rewrite !length_map in H. cbv zeta in H.
  set (n := Nat.max (length names) (length id64s)) in *.
  rewrite !norm_list_pads in H by (rewrite length_map; lia).
  rewrite !length_map in H.
  destruct (collect_mappers _ _ _ _ _) as [res|e] eqn:Ec; [|done].
  injection H as <-. split; [done|]. split; [done|].
  apply collect_mappers_inv in Ec as (ms & -> & Hlen & Hms).
  exists ms. split; [done|]. split; [done|].
  intros i Hlt. destruct (Hms i) as (x & y & m & Hx & Hy & Hm & Hl); [lia|].
  simpl in Hx, Hy. rewrite padded_lookup in Hx, Hy by lia.
  exists m. by simplify_eq.
Qed.

Lemma fix_mappers_ok_literal d d' s :
  d <> [] ->
  _fix_mappers py_repr (Some d) = (Some d', Ok tt) ->
  In s (substrings d _MAPPER_ID64_KEY) ->
  absent_text s = true \/ exists z, int_of_str s = Some z.
Proof.
  intros Hd H Hs.
  destruct (fix_mappers_ok_inv d d' Hd H) as (_ & _ & ms & _ & Hlen & Hms).
  apply list_elem_of_In, list_elem_of_lookup in Hs as [i Hs].
  destruct (Hms i) as (m & Hm & _).
  { apply lookup_lt_Some in Hs. lia. }
  unfold Mapper, padded in Hm. rewrite Hs in Hm.
  destruct (__fix_val _ (py_str py_repr)) as [n|e]; [|done]. simpl in Hm.
  rewrite fix_val_text in Hm.
  destruct (absent_text s); [by left|]. right.
  simpl in Hm. destruct (int_of_str s) as [z|]; [eauto|done].
Qed.


(** X7: when [_fix_mappers] returns normally on a record that has the
    [mapper_name] key or the [mapper_steamid64] key, the list it stores
    under [mappers] holds at least one credit. *)
Theorem fix_mappers_some_credit d d' :
  _fix_mappers py_repr (Some d) = (Some d', Ok tt) ->
  dict_get _MAPPER_NAME_KEY d <> None \/ dict_get _MAPPER_ID64_KEY d <> None ->
  exists m ms, dict_get _MAPPERS_KEY d' = Some (VList (VDict m :: ms)).
Proof.
  intros H Hkey. assert (Hd : d <> []) by (intros ->; by destruct Hkey).
  destruct (fix_mappers_ok_inv d d' Hd H) as (Hn & Hi & ms & -> & Hlen & Hms).
  rewrite dict_get_set_eq.
  assert (Hpos : (0 < length ms)%nat).
  { rewrite Hlen. unfold substrings.
    destruct Hkey as [Hk|Hk]; [destruct Hn as [Hn|(s & Hn & _)]
                              |destruct Hi as [Hi|(s & Hi & _)]];
      try done.
    - rewrite Hn. pose proof (split_from_nonempty _STR_SEPARATOR 0 s).
      destruct (split_from _STR_SEPARATOR 0 s); [done|simpl; lia].
    - rewrite Hi. pose proof (split_from_nonempty _STR_SEPARATOR 0 s).
      destruct (split_from _STR_SEPARATOR 0 s); [done|simpl; lia]. }
  destruct (Hms 0%nat Hpos) as (m & _ & Hl).
  destruct ms as [|m0 ms]; [done|]. simpl in Hl. simplify_eq. eauto.
Qed.

(** X8: [_fix_mappers] is not idempotent.  Run again on a record it
    normalised, it returns normally and replaces the credits by the empty
    list. *)
Theorem fix_mappers_again_clears d d' :
  d <> [] ->
  _fix_mappers py_repr (Some d) = (Some d', Ok tt) ->
  _fix_mappers py_repr (Some d')
  = (Some (dict_set _MAPPERS_KEY (VList []) d'), Ok tt).
Proof.
  intros Hd H.
  destruct (fix_mappers_ok_inv d d' Hd H) as (_ & _ & ms & -> & _).
  rewrite fix_mappers_run by apply dict_set_nonempty.
  rewrite take_delimited_absent.
  2:{ rewrite dict_get_set_ne by done.
      rewrite dict_get_del_ne by done. apply dict_get_del_eq. }
  rewrite take_delimited_absent.
  2:{ rewrite dict_get_set_ne by done. apply dict_get_del_eq. }
  reflexivity.
Qed.

(** X9: whatever the outcome, [_fix_mappers] leaves every key other than
    [mapper_name], [mapper_steamid64] and [mappers] with the value it had,
    and when it raises it leaves [mappers] as it was too. *)
Theorem fix_mappers_frame d d' r :
  _fix_mappers py_repr (Some d) = (Some d', r) ->
  (forall key, key <> _MAPPER_NAME_KEY -> key <> _MAPPER_ID64_KEY ->
     key <> _MAPPERS_KEY -> dict_get key d' = dict_get key d)
  /\ (forall e, r = Raise e ->
        dict_get _MAPPERS_KEY d' = dict_get _MAPPERS_KEY d).
Proof.
  destruct d as [|kv d0]; [intros [= <- <-]; by split|].
  set (d := kv :: d0). rewrite fix_mappers_run by done.
  assert (Hstep : forall key, key <> _MAPPER_NAME_KEY ->
            key <> _MAPPER_ID64_KEY ->
            dict_get key
              (fst (take_delimited _MAPPER_ID64_KEY
                      (fst (take_delimited _MAPPER_NAME_KEY d))))
            = dict_get key d).
  { intros key H1 H2. by rewrite !take_delimited_frame. }
  destruct (take_delimited _MAPPER_NAME_KEY d) as [d1 [xs|e]] eqn:E1.
  2:{ intros [= <- <-]. pose proof (take_delimited_frame _MAPPER_NAME_KEY) as F.
      specialize (F _MAPPERS_KEY d). rewrite E1 in F.
      split; [|intros; by apply F].
      intros key H1 H2 H3. pose proof (take_delimited_frame
        _MAPPER_NAME_KEY key d H1) as F'. by rewrite E1 in F'. }
  simpl in Hstep.
  destruct (take_delimited _MAPPER_ID64_KEY d1) as [d2 [ys|e]] eqn:E2;
    simpl in Hstep.
  2:{ intros [= <- <-]. split; [|intros; by apply Hstep].
      intros key H1 H2 H3. by apply Hstep. }
  destruct (py_len xs), (py_len ys);
    try (intros [= <- <-]; split; [|intros; by apply Hstep];
         intros key H1 H2 H3; by apply Hstep).
  cbv zeta. destruct (collect_mappers _ _ _ _ _).
  - intros [= <- <-]. split; [|done]. intros key H1 H2 H3.
    rewrite dict_get_set_ne by done. by apply Hstep.
  - intros [= <- <-]. split; [|intros; by apply Hstep].
    intros key H1 H2 H3. by apply Hstep.
Qed.

Lemma substrings_clean d key :
  Forall (fun p => occurrences _STR_SEPARATOR p = 0%nat) (substrings d key).
Proof.
  unfold substrings. destruct (dict_get key d) as [[| | | |s| |]|];
    try by constructor.
  apply split_from_clean.
Qed.

(** X10: in the credits [_fix_mappers] stores on a normal return, a name
    that is a string is never empty, never the text [null], and never
    contains the separator [", "]. *)
Theorem fix_mappers_names d d' ms m s :
  d <> [] ->
  _fix_mappers py_repr (Some d) = (Some d', Ok tt) ->
  dict_get _MAPPERS_KEY d' = Some (VList ms) ->
  In (VDict m) ms ->
  dict_get NAME_KEY m = Some (VStr s) ->
  s <> "" /\ s <> "null" /\ occurrences _STR_SEPARATOR s = 0%nat.
Proof.
  intros Hd H Hget Hin Hname.
  destruct (fix_mappers_ok_inv d d' Hd H) as (_ & _ & ms' & -> & _ & Hms).
  rewrite dict_get_set_eq in Hget. injection Hget as <-.
  apply list_elem_of_In, list_elem_of_lookup in Hin as [i Hi].
  destruct (Hms i) as (m' & Hm & Hl); [by apply lookup_lt_Some in Hi|].
  rewrite Hi in Hl. injection Hl as <-.
  pose proof (substrings_clean d _MAPPER_NAME_KEY) as Hclean.
  unfold Mapper, padded in Hm.
  destruct (substrings d _MAPPER_NAME_KEY !! i) as [t|] eqn:Et.
  - rewrite fix_val_text in Hm.
    destruct (absent_text t) eqn:Ea; simpl in Hm.
    + destruct (__fix_val _ py_int) as [x|e]; [|done]. simpl in Hm.
      injection Hm as <-. simpl in Hname. done.
    + destruct (__fix_val _ py_int) as [x|e]; [|done]. simpl in Hm.
      injection Hm as <-. simpl in Hname. injection Hname as <-.
      unfold absent_text in Ea. apply orb_false_iff in Ea as [E1 E2].
      apply String.eqb_neq in E1, E2. split; [done|]. split; [done|].
      rewrite Forall_lookup in Hclean. by apply (Hclean i).
  - change (__fix_val VNone (py_str py_repr)) with (@Ok value VNone) in Hm.
    destruct (__fix_val _ py_int) as [x|e]; [|done]. simpl in Hm.
    injection Hm as <-. simpl in Hname. done.
Qed.

End MapperProperties.

(** [Mapper_shape] at a name and an id. *)
Lemma Mapper_shape_witness :
  exists n i,
    [("name", VStr "Alice"); ("id64", VInt 76561198000000001)]
    = [("name", n); ("id64", i)]
    /\ (n = VNone \/ exists s, n = VStr s)
    /\ (i = VNone \/ exists z, i = VInt z).
Proof.
  apply (Mapper_shape opaque_repr (VStr "Alice") (VStr "76561198000000001")).
  reflexivity.
Defined.

(** [fix_mappers_names] at a record with two names. *)
Lemma fix_mappers_names_witness :
  "Bob" <> "" /\ "Bob" <> "null" /\ occurrences _STR_SEPARATOR "Bob" = 0%nat.
Proof.
  apply (fix_mappers_names opaque_repr
           [("mapper_name", VStr "Alice, Bob")]
           [("mappers", VList [VDict [("name", VStr "Alice"); ("id64", VNone)];
                               VDict [("name", VStr "Bob"); ("id64", VNone)]])]
           [VDict [("name", VStr "Alice"); ("id64", VNone)];
            VDict [("name", VStr "Bob"); ("id64", VNone)]]
           [("name", VStr "Bob"); ("id64", VNone)] "Bob");
    [discriminate|reflexivity|reflexivity|right; by left|reflexivity].
Defined.


(** [fix_mappers_some_credit] at a record with one name. *)
Lemma fix_mappers_some_credit_witness :
  exists m ms,
    dict_get _MAPPERS_KEY
      [("name", VStr "kz_example");
       ("mappers", VList [VDict [("name", VStr "Alice"); ("id64", VNone)]])]
    = Some (VList (VDict m :: ms)).
Proof.
  apply (fix_mappers_some_credit opaque_repr
           [("name", VStr "kz_example"); ("mapper_name", VStr "Alice")]);
    [reflexivity|left; discriminate].
Defined.

(** [fix_mappers_again_clears] at a record with one name. *)
Lemma fix_mappers_again_clears_witness :
  _fix_mappers opaque_repr
    (Some [("name", VStr "kz_example");
           ("mappers", VList [VDict [("name", VStr "Alice"); ("id64", VNone)]])])
  = (Some [("name", VStr "kz_example"); ("mappers", VList [])], Ok tt).
Proof.
  apply (fix_mappers_again_clears opaque_repr
           [("name", VStr "kz_example"); ("mapper_name", VStr "Alice")]);
    [discriminate|reflexivity].
Defined.

(** [fix_mappers_frame] at a record whose id list is empty. *)
Lemma fix_mappers_frame_witness :
  (forall key, key <> _MAPPER_NAME_KEY -> key <> _MAPPER_ID64_KEY ->
     key <> _MAPPERS_KEY ->
     dict_get key [("name", VStr "kz_example")]
     = dict_get key [("name", VStr "kz_example"); ("mapper_name", VStr "Alice");
                     ("mapper_steamid64", VStr "")])
  /\ (forall e, @Raise unit TypeError = Raise e ->
        dict_get _MAPPERS_KEY [("name", VStr "kz_example")]
        = dict_get _MAPPERS_KEY
            [("name", VStr "kz_example"); ("mapper_name", VStr "Alice");
             ("mapper_steamid64", VStr "")]).
Proof.
  apply (fix_mappers_frame opaque_repr
           [("name", VStr "kz_example"); ("mapper_name", VStr "Alice");
            ("mapper_steamid64", VStr "")]).
  reflexivity.
Defined.

(** ** [_fix_urls] and [_fix_types] *)

Lemma dict_set_same k v d : dict_get k d = Some v -> dict_set k v d = d.
Proof.
  induction d as [|[k' v'] d IH]; simpl; [done|].
  destruct (String.eqb k' k); [by intros [= ->]|].
  intros H. by rewrite IH.
Qed.

Lemma dict_keys_set k v v' d :
  dict_get k d = Some v' -> dict_keys (dict_set k v d) = dict_keys d.
Proof.
  unfold dict_keys. induction d as [|[k0 v0] d IH]; simpl; [done|].
  destruct (String.eqb k0 k); [done|]. intros H. simpl. by rewrite IH.
Qed.

Lemma fix_url_at_keeps key d :
  dict_keys (fst (fix_url_at key d)) = dict_keys d
  /\ forall k, k <> key -> dict_get k (fst (fix_url_at key d)) = dict_get k d.
Proof.
  rewrite fix_url_at_run. destruct (dict_get key d) as [url|] eqn:E; [|done].
  destruct (fix_url url); [|done]. simpl. split.
  - by apply (dict_keys_set _ _ url).
  - intros k Hk. apply dict_get_set_ne. congruence.
Qed.

Lemma fix_type_at_keeps key d :
  dict_keys (fst (fix_type_at key d)) = dict_keys d.
Proof.
  rewrite fix_type_at_run. destruct (dict_get key d) as [val|] eqn:E; [|done].
  destruct (truthy val); [|done]. destruct (py_int val); [|done].
  by apply (dict_keys_set _ _ val).
Qed.

Lemma for_each_keeps (step : string -> M pydict unit) keys :
  (forall key d, dict_keys (fst (step key d)) = dict_keys d) ->
  forall d, dict_keys (fst (for_each keys step d)) = dict_keys d.
Proof.
  intros Hstep. induction keys as [|key keys IH]; intros d; [done|].
  simpl. unfold bind. specialize (Hstep key d).
  destruct (step key d) as [d1 [[]|e]]; simpl in *; [|done].
  by rewrite IH.
Qed.

Lemma unless_falsy_some body d d' r :
  unless_falsy body (Some d) = (Some d', r) ->
  d = [] /\ d' = [] /\ r = Ok tt \/ d <> [] /\ body d = (d', r).
Proof.
  destruct d as [|kv d]; [intros [= <- <-]; by left|].
  rewrite unless_falsy_run by done.
  destruct (body (kv :: d)). intros [= <- <-]. by right.
Qed.

(** X11: whatever the outcome, [_fix_urls] keeps the keys of the record and
    their order, and leaves every key but [workshop_url] with the value it
    had. *)
Theorem fix_urls_keeps d d' r :
  _fix_urls (Some d) = (Some d', r) ->
  dict_keys d' = dict_keys d
  /\ forall key, key <> "workshop_url" -> dict_get key d' = dict_get key d.
Proof.
  intros H. apply unless_falsy_some in H as [(-> & -> & _)|[_ H]]; [done|].
  simpl in H. unfold bind in H.
  pose proof (fix_url_at_keeps "workshop_url" d) as [Hk Hf].
  destruct (fix_url_at "workshop_url" d) as [d1 [[]|e]]; simpl in *;
    injection H as <- <-; by split.
Qed.

(** [fix_urls_keeps] at the record of the scenario. *)
Lemma fix_urls_keeps_witness :
  exists d',
    _fix_urls (Some scenario_record) = (Some d', Ok tt)
    /\ dict_keys d' = dict_keys scenario_record.
Proof.
  eexists. split; [reflexivity|].
  eapply (fix_urls_keeps scenario_record). reflexivity.
Defined.

(** X12: when [_fix_urls] raises, the record is as it was, and the error
    is [KeyError] for a missing [workshop_url] or [AttributeError] for one
    that is no string. *)
Theorem fix_urls_failure d d' e :
  _fix_urls (Some d) = (Some d', Raise e) ->
  d' = d
  /\ (e = KeyError /\ dict_get "workshop_url" d = None
      \/ e = AttributeError
         /\ exists v, dict_get "workshop_url" d = Some v
                      /\ forall s, v <> VStr s).
Proof.
  intros H. apply unless_falsy_some in H as [(_ & _ & H)|[_ H]]; [done|].
  simpl in H. unfold bind in H. rewrite fix_url_at_run in H.
  destruct (dict_get "workshop_url" d) as [v|].
  - destruct v; simpl in H; simplify_eq;
      (split; [done|right; split; [done|eexists; split; [done|done]]]).
  - simplify_eq. auto.
Qed.

(** [fix_urls_failure] at a record whose URL is [null]. *)
Lemma fix_urls_failure_witness :
  exists v,
    dict_get "workshop_url"
      [("name", VStr "kz_example"); ("workshop_url", VNone)] = Some v
    /\ forall s, v <> VStr s.
Proof.
  destruct (fix_urls_failure
              [("name", VStr "kz_example"); ("workshop_url", VNone)]
              [("name", VStr "kz_example"); ("workshop_url", VNone)]
              AttributeError) as [_ [[H _]|[_ H]]];
    [reflexivity|discriminate|exact H].
Defined.

(** X13: a record whose [workshop_url] is a string with no ["http://"] and
    no ["/?"] comes out of [_fix_urls] as it went in. *)
Theorem fix_urls_normalized d u :
  dict_get "workshop_url" d = Some (VStr u) ->
  occurrences "http://" u = 0%nat ->
  occurrences "/?" u = 0%nat ->
  _fix_urls (Some d) = (Some d, Ok tt).
Proof.
  intros H Hp Hq. rewrite (fix_urls_run d u H).
  unfold https, unslash. rewrite (replace_first_none "http://") by done.
  rewrite replace_first_none by done. by rewrite dict_set_same.
Qed.

(** [fix_urls_normalized] at a record with a secure URL. *)
Lemma fix_urls_normalized_witness :
  _fix_urls (Some [("workshop_url", VStr "https://x?id=5")])
  = (Some [("workshop_url", VStr "https://x?id=5")], Ok tt).
Proof.
  apply (fix_urls_normalized _ "https://x?id=5"); reflexivity.
Defined.

(** X14: whatever the outcome, [_fix_types] keeps the keys of the record
    and their order, and leaves every key but [id] and [difficulty] with
    the value it had. *)
Theorem fix_types_keeps d d' r :
  _fix_types (Some d) = (Some d', r) ->
  dict_keys d' = dict_keys d
  /\ forall key, key <> "id" -> key <> "difficulty" ->
       dict_get key d' = dict_get key d.
Proof.
  intros H. apply unless_falsy_some in H as [(-> & -> & _)|[_ H]]; [done|].
  pose proof (for_each_keeps fix_type_at _INT_KEYS fix_type_at_keeps d) as Hk.
  pose proof (fix_types_frame _INT_KEYS) as Hf.
  rewrite H in Hk. split; [done|]. intros key H1 H2.
  specialize (Hf key d). rewrite H in Hf. apply Hf. left.
  simpl. intuition congruence.
Qed.

(** [fix_types_keeps] at the record of the scenario. *)
Lemma fix_types_keeps_witness :
  exists d',
    _fix_types (Some scenario_record) = (Some d', Ok tt)
    /\ dict_keys d' = dict_keys scenario_record.
Proof.
  eexists. split; [reflexivity|].
  eapply (fix_types_keeps scenario_record). reflexivity.
Defined.

Lemma fix_type_at_coerced key k d :
  coerced d k -> coerced (fst (fix_type_at key d)) k.
Proof.
  unfold coerced. intros H.
  destruct (String.eqb k key) eqn:Ek.
  - apply String.eqb_eq in Ek; subst key. rewrite fix_type_at_run.
    destruct (dict_get k d) as [val|] eqn:E; simpl; [|by rewrite E].
    destruct H as [H|(z & ->)].
    + rewrite H. simpl. rewrite E. by left.
    + destruct (truthy (VInt z)); simpl; [|rewrite E; eauto].
      rewrite dict_get_set_eq. eauto.
  - apply String.eqb_neq in Ek. by rewrite fix_type_at_frame by by left.
Qed.

Lemma fix_type_at_coerces key d :
  snd (fix_type_at key d) = Ok tt -> coerced (fst (fix_type_at key d)) key.
Proof.
  unfold coerced. rewrite fix_type_at_run.
  destruct (dict_get key d) as [val|] eqn:E; simpl; [|by rewrite E].
  destruct (truthy val) eqn:T; simpl; [|rewrite E; by left].
  destruct (py_int val) as [n|e] eqn:P; simpl; [|done].
  rewrite dict_get_set_eq. intros _. right. by apply (py_int_ok val).
Qed.

Lemma fix_types_coerced keys : forall d k,
  coerced d k -> coerced (fst (for_each keys fix_type_at d)) k.
Proof.
  induction keys as [|key keys IH]; intros d k H; [done|].
  simpl. unfold bind. pose proof (fix_type_at_coerced key k d H) as Hstep.
  destruct (fix_type_at key d) as [d1 [[]|e]]; simpl in *; [|done].
  by apply IH.
Qed.

Lemma fix_types_coerces_all keys : forall d,
  snd (for_each keys fix_type_at d) = Ok tt ->
  forall k, In k keys -> coerced (fst (for_each keys fix_type_at d)) k.
Proof.
  induction keys as [|key keys IH]; intros d Hok k Hin; [done|].
  simpl in *. unfold bind in *.
  pose proof (fix_type_at_coerces key d) as Hstep.
  destruct (fix_type_at key d) as [d1 [[]|e]]; simpl in *; [|done].
  destruct Hin as [<-|Hin].
  - apply fix_types_coerced. by apply Hstep.
  - by apply IH.
Qed.

Lemma fix_types_settled keys : forall d,
  (forall k, In k keys -> coerced d k) ->
  for_each keys fix_type_at d = (d, Ok tt).
Proof.
  induction keys as [|key keys IH]; intros d H; [done|].
  simpl. unfold bind.
  assert (Hstep : fix_type_at key d = (d, Ok tt)).
  { rewrite fix_type_at_run. specialize (H key (or_introl eq_refl)).
    unfold coerced in H. destruct (dict_get key d) as [val|] eqn:E; [|done].
    destruct H as [->|(z & ->)]; [done|].
    destruct (truthy (VInt z)); [|done]. simpl. by rewrite dict_set_same. }
  rewrite Hstep. apply IH. intros k Hk. apply H. by right.
Qed.

(** X15: after [_fix_types] has returned normally, each of [id] and
    [difficulty] is absent from the record, falsy, or an integer. *)
Theorem fix_types_result d d' :
  _fix_types (Some d) = (Some d', Ok tt) ->
  d <> [] ->
  coerced d' "id" /\ coerced d' "difficulty".
Proof.
  intros H Hd. apply unless_falsy_some in H as [(-> & _)|[_ H]]; [done|].
  pose proof (fix_types_coerces_all _INT_KEYS d) as Hc. rewrite H in Hc.
  split; apply Hc; simpl; auto.
Qed.

(** [fix_types_result] at the record of the scenario. *)
Lemma fix_types_result_witness :
  exists d',
    _fix_types (Some scenario_record) = (Some d', Ok tt)
    /\ coerced d' "id" /\ coerced d' "difficulty".
Proof.
  eexists. split; [reflexivity|].
  eapply (fix_types_result scenario_record); [reflexivity|discriminate].
Defined.

(** X16: [_fix_types] is idempotent: run again on a record it coerced, it
    returns normally and changes nothing. *)
Theorem fix_types_idempotent d d' :
  _fix_types (Some d) = (Some d', Ok tt) ->
  _fix_types (Some d') = (Some d', Ok tt).
Proof.
  intros H. apply unless_falsy_some in H as [(-> & -> & _)|[Hd H]]; [done|].
  pose proof (fix_types_coerces_all _INT_KEYS d) as Hc. rewrite H in Hc.
  unfold _fix_types. destruct d' as [|kv d']; [done|].
  rewrite unless_falsy_run by done.
  by rewrite fix_types_settled by (intros k Hk; by apply Hc).
Qed.

(** [fix_types_idempotent] at the record of the scenario. *)
Lemma fix_types_idempotent_witness :
  exists d',
    _fix_types (Some scenario_record) = (Some d', Ok tt)
    /\ _fix_types (Some d') = (Some d', Ok tt).
Proof.
  eexists. split; [reflexivity|].
  eapply (fix_types_idempotent scenario_record). reflexivity.
Defined.

(** ** [_fix_maps] *)

Lemma for_each_item_length {S} (body : M S unit) items :
  length (fst (for_each_item body items)) = length items.
Proof.
  induction items as [|x xs IH]; [done|]. simpl.
  destruct (body x) as [x' [[]|e]]; [|done].
  destruct (for_each_item body xs). simpl in *. by rewrite IH.
Qed.

Lemma for_each_item_ok {S} (body : M S unit) items items' :
  for_each_item body items = (items', Ok tt)
  <-> Forall2 (fun x x' => body x = (x', Ok tt)) items items'.
Proof.
  revert items'. induction items as [|x xs IH]; intros items'; simpl.
  - split; [intros [= <-]; constructor|by intros ->%Forall2_nil_inv_l].
  - split.
    + destruct (body x) as [x' [[]|e]] eqn:Ex; [|done].
      destruct (for_each_item body xs) as [xs' r] eqn:Exs.
      intros [= <- ->]. constructor; [done|]. by apply IH.
    + intros (x' & xs' & Hx & Hxs & ->)%Forall2_cons_inv_l.
      rewrite Hx. apply IH in Hxs. by rewrite Hxs.
Qed.

Lemma for_each_item_raise {S} (body : M S unit) items items' e :
  for_each_item body items = (items', Raise e) ->
  exists before before' x x' after,
    items = before ++ x :: after
    /\ items' = before' ++ x' :: after
    /\ Forall2 (fun y y' => body y = (y', Ok tt)) before before'
    /\ body x = (x', Raise e).
Proof.
  revert items'. induction items as [|x xs IH]; intros items'; simpl; [done|].
  destruct (body x) as [x' [[]|e']] eqn:Ex.
  - destruct (for_each_item body xs) as [xs' r] eqn:Exs.
    intros [= <- ->].
    destruct (IH _ eq_refl) as (b & b' & y & y' & a & -> & -> & Hb & Hy).
    exists (x :: b), (x' :: b'), y, y', a. repeat split; try done.
    by constructor.
  - intros [= <- <-]. exists [], [], x, x', xs. by repeat split.
Qed.

Lemma for_each_item_fixed {S} (body : M S unit) items : forall i x,
  items !! i = Some x -> body x = (x, Ok tt) ->
  fst (for_each_item body items) !! i = Some x.
Proof.
  induction items as [|y ys IH]; intros i x Hi Hx; [done|]. simpl.
  destruct i as [|i]; simpl in Hi.
  - simplify_eq. rewrite Hx. by destruct (for_each_item body ys).
  - destruct (body y) as [y' [[]|e]]; [|done].
    specialize (IH i x Hi Hx). by destruct (for_each_item body ys).
Qed.

Lemma fix_maps_run py_repr items :
  _fix_maps py_repr (Some items) =
    (Some (fst (for_each_item (fix_map py_repr) items)),
     snd (for_each_item (fix_map py_repr) items)).
Proof.
  destruct items as [|x xs]; [done|]. unfold _fix_maps, fix_map.
  by destruct (for_each_item _ (x :: xs)).
Qed.

Section CollectionProperties.

Variable py_repr : value -> string.

(** [_fix_maps] returns normally exactly when the three transforms return
    normally on every record in turn, and the list then holds the records
    as the transforms left them, in the same order. *)
Lemma fix_maps_returns items items' :
  _fix_maps py_repr (Some items) = (Some items', Ok tt)
  <-> Forall2 (fun x x' => fix_map py_repr x = (x', Ok tt)) items items'.
Proof.
  rewrite fix_maps_run, <- for_each_item_ok.
  destruct (for_each_item (fix_map py_repr) items) as [xs r]. simpl.
  split; [by intros [= -> ->]|by intros [= -> ->]].
Qed.

(** X17: when [_fix_maps] raises, it is at the first record on which a
    transform raises: the records before it are normalised, that record is
    as the failing transform left it, and the records after it are as they
    were. *)
Theorem fix_maps_fail_fast items items' e :
  _fix_maps py_repr (Some items) = (Some items', Raise e) ->
  exists before before' x x' after,
    items = before ++ x :: after
    /\ items' = before' ++ x' :: after
    /\ Forall2 (fun y y' => fix_map py_repr y = (y', Ok tt)) before before'
    /\ fix_map py_repr x = (x', Raise e).
Proof.
  rewrite fix_maps_run. intros H. apply for_each_item_raise.
  destruct (for_each_item (fix_map py_repr) items) as [xs r]. simpl in H.
  by simplify_eq.
Qed.

(** X18: whatever the outcome, [_fix_maps] keeps the number of records,
    and a record that is [None] or empty stays as it is. *)
Theorem fix_maps_keeps items items' r :
  _fix_maps py_repr (Some items) = (Some items', r) ->
  length items' = length items
  /\ forall i x, items !! i = Some x -> x = None \/ x = Some [] ->
       items' !! i = Some x.
Proof.
  rewrite fix_maps_run. intros [= <- _]. split.
  - apply for_each_item_length.
  - intros i x Hi Hx. apply for_each_item_fixed; [done|].
    by destruct Hx as [-> | ->].
Qed.

End CollectionProperties.

(** [fix_maps_fail_fast] at a list whose second record has a bad id. *)
Lemma fix_maps_fail_fast_witness :
  exists before before' x x' after,
    [Some scenario_record;
     Some [("id", VStr "x"); ("workshop_url", VStr "http://y")];
     Some scenario_record]
    = before ++ x :: after
    /\ [Some scenario_normalized;
        Some [("id", VStr "x"); ("workshop_url", VStr "https://y");
              ("mappers", VList [])];
        Some scenario_record]
       = before' ++ x' :: after
    /\ Forall2 (fun y y' => fix_map opaque_repr y = (y', Ok tt)) before before'
    /\ fix_map opaque_repr x = (x', Raise ValueError).
Proof. apply (fix_maps_fail_fast opaque_repr). reflexivity. Defined.

(** [fix_maps_keeps] at a list with an empty record and [None]. *)
Lemma fix_maps_keeps_witness :
  exists items',
    _fix_maps opaque_repr (Some [Some []; Some scenario_record; None])
    = (Some items', Ok tt)
    /\ length items' = 3%nat.
Proof.
  eexists. split; [reflexivity|].
  eapply (fix_maps_keeps opaque_repr [Some []; Some scenario_record; None]).
  reflexivity.
Defined.

(** ** The three transforms on one record *)

Lemma unless_falsy_Some body d :
  exists d' r, unless_falsy body (Some d) = (Some d', r).
Proof.
  unfold unless_falsy. destruct (truthy (VDict d)); [|eauto].
  destruct (body d). eauto.
Qed.

Lemma fix_urls_Some (d : pydict) : exists d' r, _fix_urls (Some d) = (Some d', r).
Proof. apply unless_falsy_Some. Qed.

Lemma fix_urls_ok_inv d d' :
  d <> [] -> _fix_urls (Some d) = (Some d', Ok tt) ->
  exists u, dict_get "workshop_url" d = Some (VStr u)
            /\ d' = dict_set "workshop_url" (VStr (unslash (https u))) d.
Proof.
  intros Hd H. apply unless_falsy_some in H as [(-> & _)|[_ H]]; [done|].
  simpl in H. unfold bind in H. rewrite fix_url_at_run in H.
  destruct (dict_get "workshop_url" d) as [[| | | |u| |]|]; simpl in H;
    try done.
  exists u. unfold ret in H. by simplify_eq.
Qed.

Lemma fix_types_ok_inv keys : forall d,
  NoDup keys ->
  snd (for_each keys fix_type_at d) = Ok tt ->
  forall key val, In key keys -> dict_get key d = Some val ->
    truthy val = true -> exists n, py_int val = Ok n.
Proof.
  induction keys as [|k keys IH]; intros d Hnd Hok key val Hin E T; [done|].
  apply NoDup_cons in Hnd as [Hk Hnd]. simpl in Hok. unfold bind in Hok.
  destruct Hin as [->|Hin].
  - rewrite fix_type_at_run, E, T in Hok.
    destruct (py_int val) as [n|e]; [eauto|done].
  - assert (Hne : key <> k).
    { intros ->. apply Hk. by rewrite list_elem_of_In. }
    pose proof (fix_type_at_frame k key d (or_introl Hne)) as Hf.
    destruct (fix_type_at k d) as [d1 [[]|e]]; simpl in *; [|done].
    apply (IH d1 Hnd Hok key val); try done. by rewrite Hf.
Qed.

Lemma fix_val_str_shape py_repr v n :
  __fix_val v (py_str py_repr) = Ok n -> n = VNone \/ exists s, n = VStr s.
Proof.
  unfold __fix_val, py_str.
  destruct (truthy v && negb (eq_str v "null")); intros [= <-]; eauto.
Qed.

Lemma fix_val_int_shape v i :
  __fix_val v py_int = Ok i -> i = VNone \/ exists z, i = VInt z.
Proof.
  unfold __fix_val.
  destruct (truthy v && negb (eq_str v "null")); [|intros [= <-]; eauto].
  intros H. right. by apply (py_int_ok v).
Qed.

Section RecordProperties.

Variable py_repr : value -> string.

Lemma Mapper_credit_shaped name id64 m :
  Mapper py_repr name id64 = Ok m -> credit_shaped (VDict m).
Proof.
  unfold Mapper, credit_shaped.
  destruct (__fix_val name _) as [n|e] eqn:En; [|done].
  destruct (__fix_val id64 _) as [i|e] eqn:Ei; [|done]. simpl.
  intros [= <-]. exists n, i. split; [done|].
  eauto using fix_val_str_shape, fix_val_int_shape.
Qed.

Lemma fix_mappers_Some (d : pydict) :
  exists d' r, _fix_mappers py_repr (Some d) = (Some d', r).
Proof. apply unless_falsy_Some. Qed.

Lemma fix_map_run x :
  fix_map py_repr x =
    match _fix_mappers py_repr x with
    | (x1, Raise e) => (x1, Raise e)
    | (x1, Ok _) =>
        match _fix_urls x1 with
        | (x2, Raise e) => (x2, Raise e)
        | (x2, Ok _) => _fix_types x2
        end
    end.
Proof.
  unfold fix_map, bind. destruct (_fix_mappers py_repr x) as [x1 [[]|e]]; [|done].
  by destruct (_fix_urls x1) as [x2 [[]|e]].
Qed.

Lemma fix_mappers_returns_if (d : pydict) :
  d <> [] ->
  delimited d _MAPPER_NAME_KEY ->
  delimited d _MAPPER_ID64_KEY ->
  (forall s, In s (substrings d _MAPPER_ID64_KEY) ->
     absent_text s = true \/ exists z, int_of_str s = Some z) ->
  exists ms,
    _fix_mappers py_repr (Some d)
    = (Some (dict_set _MAPPERS_KEY (VList ms)
               (dict_del _MAPPER_ID64_KEY (dict_del _MAPPER_NAME_KEY d))),
       Ok tt).
Proof.
  intros Hd Hn Hi Hlit.
  assert (Hi' : delimited (dict_del _MAPPER_NAME_KEY d) _MAPPER_ID64_KEY)
    by (unfold delimited; by rewrite dict_get_del_ne).
  rewrite fix_mappers_run by done.
  rewrite (take_delimited_ok _ _ Hn), (take_delimited_ok _ _ Hi').
  replace (substrings (dict_del _MAPPER_NAME_KEY d) _MAPPER_ID64_KEY)
    with (substrings d _MAPPER_ID64_KEY)
    by (unfold substrings; by rewrite dict_get_del_ne).
  set (names := substrings d _MAPPER_NAME_KEY).
  set (id64s := substrings d _MAPPER_ID64_KEY) in *.
  simpl py_len. rewrite !length_map. cbv zeta.
  set (n := Nat.max (length names) (length id64s)).
  rewrite !norm_list_pads by (rewrite length_map; lia). rewrite !length_map.
  destruct (collect_mappers_ok py_repr names id64s n 0 []) as (ms & Hrun & _).
  - intros i _.
    destruct (Mapper_of_padded py_repr names id64s i) as (x & y & H & _);
      [|eauto].
    intros s Hs. apply Hlit, list_elem_of_In. by apply list_elem_of_lookup_2 in Hs.
  - intros i Hlt. by apply padded_lookup.
  - intros i Hlt. by apply padded_lookup.
  - simpl in Hrun. rewrite Hrun. by exists ms.
Qed.


(** X20: when the three transforms in turn return normally on a non-empty
    record, the record they leave has neither [mapper_name] nor
    [mapper_steamid64], has under [mappers] a list of credits (each with a
    name that is [None] or a string and an id that is [None] or an
    integer), has a string under [workshop_url], and has [id] and
    [difficulty] absent, falsy or integers. *)
Theorem fix_map_result (d d' : pydict) :
  d <> [] ->
  fix_map py_repr (Some d) = (Some d', Ok tt) ->
  dict_get _MAPPER_NAME_KEY d' = None
  /\ dict_get _MAPPER_ID64_KEY d' = None
  /\ (exists ms, dict_get _MAPPERS_KEY d' = Some (VList ms)
                 /\ Forall credit_shaped ms)
  /\ (exists u, dict_get "workshop_url" d' = Some (VStr u))
  /\ coerced d' "id" /\ coerced d' "difficulty".
Proof.
  intros Hd H. rewrite fix_map_run in H.
  destruct (fix_mappers_Some d) as (d1 & r1 & E1).
  rewrite E1 in H. destruct r1 as [[]|e]; [|done].
  destruct (fix_mappers_ok_inv py_repr d d1 Hd E1)
    as (_ & _ & ms & -> & _ & Hms).
  set (d1 := dict_set _MAPPERS_KEY (VList ms) _) in *.
  destruct (fix_urls_Some d1) as (d2 & r2 & E2).
  rewrite E2 in H. destruct r2 as [[]|e]; [|done].
  apply fix_urls_ok_inv in E2 as (u & Hu & ->); [|apply dict_set_nonempty].
  set (d2 := dict_set "workshop_url" _ d1) in *.
  apply unless_falsy_some in H as [(H & _)|[_ H]];
    [by apply dict_set_nonempty in H|].
  pose proof (fix_types_frame _INT_KEYS) as Hf.
  pose proof (fix_types_coerces_all _INT_KEYS d2) as Hc.
  assert (Hother : forall key, key <> "id" -> key <> "difficulty" ->
            dict_get key d' = dict_get key d2).
  { intros key K1 K2. specialize (Hf key d2). rewrite H in Hf. apply Hf.
    left. simpl. intuition congruence. }
  rewrite H in Hc. simpl in Hc.
  rewrite !Hother by done. unfold d2.
  rewrite !dict_get_set_ne by done. rewrite dict_get_set_eq. unfold d1.
  rewrite !dict_get_set_ne, dict_get_set_eq by done.
  rewrite dict_get_del_ne, !dict_get_del_eq by done.
  split; [done|]. split; [done|]. split.
  { exists ms. split; [done|]. apply Forall_lookup. intros i v Hv.
    destruct (Hms i) as (m & Hm & Hl); [by apply lookup_lt_Some in Hv|].
    simplify_eq. by apply (Mapper_credit_shaped _ _ _ Hm). }
  split; [eauto|]. split; apply Hc; simpl; auto.
Qed.

End RecordProperties.


(** [fix_map_result] at the record of the scenario. *)
Lemma fix_map_result_witness :
  exists ms,
    dict_get _MAPPERS_KEY scenario_normalized = Some (VList ms)
    /\ Forall credit_shaped ms.
Proof.
  destruct (fix_map_result opaque_repr scenario_record scenario_normalized)
    as (_ & _ & H & _); [discriminate|reflexivity|exact H].
Defined.

(** ** [_main] *)

Section RunProperties.

Variable py_repr : value -> string.
Variable server : list string -> string -> result Response.
Variable json_loads : string -> result value.
Variable encode_escape decode_escape : string -> string.
Variable normpath basename dirname : string -> string.
Variable splitext : string -> string * string.
Variable join : string -> string -> string.
Variable json_dumps : value -> option Z -> option (string * string) -> result string.
Variable fs : Type.
Variable path_exists : string -> fs -> bool.
Variable makedirs open_w : string -> M fs unit.
Variable write_close : string -> string -> M fs unit.
Variable script_file : string.

Local Abbreviation main :=
  (_main py_repr server json_loads encode_escape decode_escape normpath
     basename dirname splitext join json_dumps fs path_exists makedirs open_w
     write_close script_file).
Local Abbreviation sources :=
  (main_sources py_repr server json_loads encode_escape decode_escape normpath
     basename dirname splitext join json_dumps fs path_exists makedirs open_w
     write_close script_file).
Local Abbreviation source :=
  (main_source py_repr server json_loads encode_escape decode_escape normpath
     basename dirname splitext join json_dumps fs path_exists makedirs open_w
     write_close script_file).
Local Abbreviation each :=
  (dump_each encode_escape decode_escape normpath basename dirname splitext
     join json_dumps fs path_exists makedirs open_w write_close).
Local Abbreviation fetch := (_get_url_json server json_loads).

Lemma source_url_nonempty fkey : source_url fkey <> "".
Proof. done. Qed.

Lemma fetch_sent u s : u <> "" -> fst (fetch (Some u) s) = u :: s.
Proof.
  intros Hu. unfold _get_url_json, bind.
  rewrite get_url_response_run by done. simpl.
  destruct (server s u) as [response|e]; [|done].
  destruct (raise_for_status response); [|done].
  destruct (status_code response =? 204); [done|].
  unfold lift, ret. by destruct (json_loads (text response)).
Qed.

Lemma on_disk_sent {A} (c : M fs A) (w : world fs) :
  sent fs (fst (on_disk fs c w)) = sent fs w.
Proof. unfold on_disk. by destruct (c (disk fs w)). Qed.

Local Abbreviation keeps_sent c :=
  (forall w : world fs, sent fs (fst (c w)) = sent fs w).

Lemma bind_sent {A B} (c : M (world fs) A) (k : A -> M (world fs) B) w :
  (forall a, keeps_sent (k a)) ->
  sent fs (fst (bind c k w)) = sent fs (fst (c w)).
Proof.
  intros Hk. unfold bind. destruct (c w) as [w1 [a|e]]; [|done]. apply Hk.
Qed.

Lemma bind_keeps {A B} (c : M (world fs) A) (k : A -> M (world fs) B) :
  keeps_sent c -> (forall a, keeps_sent (k a)) -> keeps_sent (bind c k).
Proof. intros Hc Hk w. by rewrite bind_sent, Hc. Qed.

Lemma dump_each_sent dump_path name_of items :
  keeps_sent (each dump_path name_of items).
Proof.
  induction items as [|x items IH]; [done|].
  simpl. apply bind_keeps; [done|]. intros name.
  apply bind_keeps; [intros w; apply on_disk_sent|].
  by intros [|].
Qed.

(** A source sends its one request, whatever happens next. *)
Lemma main_source_sent fkey fname w :
  sent fs (fst (source fkey fname w)) = source_url fkey :: sent fs w.
Proof.
  unfold main_source. rewrite bind_sent.
  - unfold on_network.
    pose proof (fetch_sent (source_url fkey) (sent fs w)
                  (source_url_nonempty fkey)) as Hf.
    by destruct (fetch (Some (source_url fkey)) (sent fs w)).
  - intros fetched.
    destruct (negb (truthy match fetched with Some v => v | None => VNone end));
      [done|].
    destruct (fix_maps_value py_repr _) as [maps_json fixed].
    apply bind_keeps; [done|]. intros _.
    apply bind_keeps; [intros w'; apply on_disk_sent|]. intros [|]; [|done].
    simpl negb. cbv iota.
    apply bind_keeps; [done|]. intros items.
    apply bind_keeps; [apply dump_each_sent|]. intros [|]; [|done].
    simpl negb. cbv iota.
    apply bind_keeps; [done|]. intros items'. apply dump_each_sent.
Qed.

Lemma main_sources_sent table : forall w,
  exists k,
    (k <= length table)%nat
    /\ (table <> [] -> 1 <= k)%nat
    /\ sent fs (fst (sources table w))
       = rev (take k (map (fun entry => source_url (fst entry)) table))
         ++ sent fs w.
Proof.
  induction table as [|[fkey fname] table IH]; intros w.
  - exists 0%nat. by repeat split.
  - simpl. unfold bind.
    pose proof (main_source_sent fkey fname w) as Hs.
    destruct (source fkey fname w) as [w1 [[|]|e]]; simpl in Hs.
    + destruct (IH w1) as (k & Hk & _ & ->). exists (S k).
      split; [simpl; lia|]. split; [lia|].
      simpl. by rewrite Hs, <- app_assoc.
    + exists 1%nat. split; [simpl; lia|]. split; [done|].
      simpl. by destruct (map _ table).
    + exists 1%nat. split; [simpl; lia|]. split; [done|].
      simpl. by destruct (map _ table).
Qed.

(** X21: whatever the servers answer and whatever the file system does,
    the requests [_main] sends are those for the first [k] sources of
    [_FILE_NAMES], for some [k] from one to four, in the order of the
    table and once each. *)
Theorem main_requests_in_order w :
  exists k,
    (1 <= k <= 4)%nat
    /\ sent fs (fst (main w))
       = rev (take k (map (fun entry => source_url (fst entry)) _FILE_NAMES))
         ++ sent fs w.
Proof.
  destruct (main_sources_sent _FILE_NAMES w) as (k & Hk & Hpos & H).
  exists k. split; [|done]. split; [by apply Hpos|done].
Qed.

(** X22: when the fetch of the first source yields no data (no response
    body, or a body that loads to a falsy value), [_main] returns normally
    having sent that one request and touched no file. *)
Theorem main_stops_without_data w o :
  snd (fetch (Some (source_url "MapsWithMappers")) (sent fs w)) = Ok o ->
  match o with Some v => truthy v = false | None => True end ->
  main w
  = ({| sent := source_url "MapsWithMappers" :: sent fs w; disk := disk fs w |},
     Ok tt).
Proof.
  intros Hf Ho. unfold _main. simpl main_sources. unfold bind at 1.
  unfold main_source. unfold bind at 1. unfold on_network.
  pose proof (fetch_sent (source_url "MapsWithMappers") (sent fs w)
                (source_url_nonempty _)) as Hs.
  destruct (fetch (Some (source_url "MapsWithMappers")) (sent fs w)) as [s r].
  simpl in *. subst s r.
  destruct o as [v|]; [by rewrite Ho|done].
Qed.

(** X23: when the fetch of the first source raises, or the fetched value
    is truthy and [_fix_maps] raises on it, [_main] raises the same error
    having sent that one request and touched no file. *)
Theorem main_raises_before_writing w :
  (forall e,
     snd (fetch (Some (source_url "MapsWithMappers")) (sent fs w)) = Raise e ->
     main w
     = ({| sent := source_url "MapsWithMappers" :: sent fs w;
           disk := disk fs w |}, Raise e))
  /\ (forall v e,
        snd (fetch (Some (source_url "MapsWithMappers")) (sent fs w))
        = Ok (Some v) ->
        truthy v = true ->
        snd (fix_maps_value py_repr v) = Raise e ->
        main w
        = ({| sent := source_url "MapsWithMappers" :: sent fs w;
              disk := disk fs w |}, Raise e)).
Proof.
  pose proof (fetch_sent (source_url "MapsWithMappers") (sent fs w)
                (source_url_nonempty _)) as Hs.
  split.
  - intros e Hf. unfold _main. simpl main_sources. unfold bind at 1.
    unfold main_source. unfold bind at 1. unfold on_network.
    destruct (fetch (Some (source_url "MapsWithMappers")) (sent fs w)) as [s r].
    simpl in *. by subst s r.
  - intros v e Hf Hv Hfix. unfold _main. simpl main_sources. unfold bind at 1.
    unfold main_source. unfold bind at 1. unfold on_network.
    destruct (fetch (Some (source_url "MapsWithMappers")) (sent fs w)) as [s r].
    simpl in *. subst s r. rewrite Hv. simpl.
    destruct (fix_maps_value py_repr v) as [v' r]. simpl in Hfix. by subst r.
Qed.

(** X24: the name of the first record is looked up only after the files
    of the whole collection were written: when the first source yields a
    truthy value that [_fix_maps] accepts, the collection is written, and
    its first item has no [name] to give (a record without the key, or an
    item that is no record), [_main] raises the error of that lookup and
    the file system is as the writing of the collection left it. *)
Theorem main_writes_collection_first w v v' st1 x rest e :
  snd (fetch (Some (source_url "MapsWithMappers")) (sent fs w)) = Ok (Some v) ->
  truthy v = true ->
  fix_maps_value py_repr v = (v', Ok tt) ->
  dump_json_named encode_escape decode_escape normpath basename dirname
    splitext join json_dumps fs path_exists makedirs open_w write_close
    (_PARENT_PATH dirname join script_file) (VStr "maps") v' (disk fs w)
  = (st1, Ok true) ->
  iterate v' = Ok (x :: rest) ->
  subscript x _NAME_KEY = Raise e ->
  main w
  = ({| sent := source_url "MapsWithMappers" :: sent fs w; disk := st1 |},
     Raise e).
Proof.
  intros Hf Hv Hfix Hdump Hiter Hname.
  pose proof (fetch_sent (source_url "MapsWithMappers") (sent fs w)
                (source_url_nonempty _)) as Hs.
  unfold _main. simpl main_sources. unfold bind at 1.
  unfold main_source. unfold bind at 1. unfold on_network.
  destruct (fetch (Some (source_url "MapsWithMappers")) (sent fs w)) as [s r].
  simpl in Hf, Hs. subst s r. cbv beta iota zeta. rewrite Hv.
  change (negb true) with false. cbv beta iota zeta. rewrite Hfix.
  unfold bind, lift, on_disk. cbv beta iota zeta. simpl disk. rewrite Hdump.
  change (negb true) with false. cbv beta iota zeta. rewrite Hiter.
  simpl dump_each. unfold bind, lift. by rewrite Hname.
Qed.

End RunProperties.

(** On an array of records, what [_main] runs on the fetched value is
    [_fix_maps]. *)
Lemma fix_map_Some py_repr (d : pydict) :
  exists d' r, fix_map py_repr (Some d) = (Some d', r).
Proof.
  unfold fix_map, bind.
  destruct (unless_falsy_Some
              (mapper_names <- take_delimited _MAPPER_NAME_KEY ;;
               mapper_id64s <- take_delimited _MAPPER_ID64_KEY ;;
               len_names <- lift (py_len mapper_names) ;;
               len_id64s <- lift (py_len mapper_id64s) ;;
               let length := Nat.max len_names len_id64s in
               let mapper_names :=
                 _norm_list mapper_names (Some (Z.of_nat length)) in
               let mapper_id64s :=
                 _norm_list mapper_id64s (Some (Z.of_nat length)) in
               mappers <- lift (collect_mappers py_repr (seq 0 length)
                                  mapper_names mapper_id64s []) ;;
               setitem _MAPPERS_KEY (VList mappers)) d) as (d1 & r1 & E1).
  change (_fix_mappers py_repr (Some d) = (Some d1, r1)) in E1. rewrite E1.
  destruct r1 as [[]|e]; [|eauto].
  destruct (fix_urls_Some d1) as (d2 & r2 & ->).
  destruct r2 as [[]|e]; [|eauto]. apply unless_falsy_Some.
Qed.

Lemma fix_item_record py_repr o :
  fix_item py_repr (record_value o)
  = (record_value (fst (fix_map py_repr o)), snd (fix_map py_repr o)).
Proof.
  destruct o as [d|]; [|done]. simpl.
  destruct (fix_map_Some py_repr d) as (d' & r & E).
  unfold pydict in *. by rewrite E.
Qed.

Lemma fix_maps_value_records py_repr items :
  items <> [] ->
  fix_maps_value py_repr (VList (map record_value items))
  = (VList (map record_value
              (fst (for_each_item (fix_map py_repr) items))),
     snd (for_each_item (fix_map py_repr) items)).
Proof.
  intros Hne. unfold fix_maps_value.
  destruct items as [|x0 xs0]; [done|]. simpl truthy. cbv iota. simpl negb.
  cbv iota. clear Hne. generalize (x0 :: xs0). intros items.
  assert (H : for_each_item (fix_item py_repr) (map record_value items)
              = (map record_value
                   (fst (for_each_item (fix_map py_repr) items)),
                 snd (for_each_item (fix_map py_repr) items))).
  { induction items as [|x xs IH]; [done|]. simpl.
    rewrite fix_item_record, IH.
    destruct (fix_map py_repr x) as [x' [[]|e]]; simpl; [|done].
    by destruct (for_each_item (fix_map py_repr) xs). }
  by rewrite H.
Qed.

(** [main_stops_without_data] with a server that has no content. *)
Lemma main_stops_without_data_witness :
  _main opaque_repr server_204 loads_nothing no_codec no_codec no_codec
    no_codec no_codec no_splitext no_join no_dumps unit no_exists no_op no_op
    no_write "src/update.py" {| sent := []; disk := tt |}
  = ({| sent := [source_url "MapsWithMappers"]; disk := tt |}, Ok tt).
Proof.
  apply (main_stops_without_data opaque_repr server_204 loads_nothing no_codec
           no_codec no_codec no_codec no_codec no_splitext no_join no_dumps
           unit no_exists no_op no_op no_write "src/update.py"
           {| sent := []; disk := tt |} None); reflexivity.
Defined.

(** [main_raises_before_writing] with a server that cannot be reached. *)
Lemma main_raises_before_writing_witness :
  _main opaque_repr server_down loads_nothing no_codec no_codec no_codec
    no_codec no_codec no_splitext no_join no_dumps unit no_exists no_op no_op
    no_write "src/update.py" {| sent := []; disk := tt |}
  = ({| sent := [source_url "MapsWithMappers"]; disk := tt |},
     Raise RequestException).
Proof.
  apply (proj1 (main_raises_before_writing opaque_repr server_down
                  loads_nothing no_codec no_codec no_codec no_codec no_codec
                  no_splitext no_join no_dumps unit no_exists no_op no_op
                  no_write "src/update.py" {| sent := []; disk := tt |}));
    reflexivity.
Defined.

(** ** [_unescape] and [_dump_json] *)

Lemma replace_all_from_none old new s :
  occurrences old s = 0%nat -> replace_all_from old new 0 s = s.
Proof.
  induction s as [|c s IH]; [done|].
  rewrite occurrences_cons. simpl.
  destruct (starts_with old (String c s)); [done|].
  simpl. intros H. by rewrite IH.
Qed.

Section WriterEdges.

Variable encode_escape decode_escape : string -> string.
Variable normpath basename dirname : string -> string.
Variable splitext : string -> string * string.
Variable join : string -> string -> string.
Variable json_dumps : value -> option Z -> option (string * string) -> result string.
Variable fs : Type.
Variable path_exists : string -> fs -> bool.
Variable makedirs open_w : string -> M fs unit.
Variable write_close : string -> string -> M fs unit.

(** X25: when decoding undoes encoding, a text whose escaped form holds no
    doubled backslash before a [u] comes out of [_unescape] as it went
    in. *)
Theorem unescape_plain s :
  (forall x, decode_escape (encode_escape x) = x) ->
  occurrences "\\u" (encode_escape s) = 0%nat ->
  _unescape encode_escape decode_escape (Some s) = Some s.
Proof.
  intros Hcodec Hocc. unfold _unescape. destruct s as [|c s]; [done|].
  unfold replace_all. by rewrite replace_all_from_none, Hcodec.
Qed.

(** X26: [_dump_json] opens [<name>.json] for writing before it serialises
    the value: when the directory check and the opening succeed and
    [json.dumps] raises, [_dump_json] raises the same error and leaves the
    file system as the opening left it, the file created or emptied. *)
Theorem dump_json_opens_first p name json_object st st1 st2 e :
  name <> "" ->
  truthy json_object = true ->
  ensure_directory fs path_exists makedirs (normpath p) st = (st1, Ok tt) ->
  open_w (join (normpath p) name ++ _DUMP_JSON_FILE_EXT) st1 = (st2, Ok tt) ->
  json_dumps json_object (Some _JSON_INDENT) None = Raise e ->
  _dump_json encode_escape decode_escape normpath basename dirname splitext
    join json_dumps fs path_exists makedirs open_w write_close
    (Some p) (Some name) json_object st
  = (st2, Raise e).
Proof.
  intros Hname Hobj Hdir Hopen Hdumps. unfold _dump_json. rewrite Hobj. simpl.
  destruct name as [|c name]; [done|].
  unfold dump_both. unfold bind at 1. rewrite Hdir.
  unfold bind at 1. unfold write_dump. unfold bind at 1. rewrite Hopen.
  unfold bind, lift. by rewrite Hdumps.
Qed.

End WriterEdges.

(** [unescape_plain] with a codec that changes nothing. *)
Lemma unescape_plain_witness :
  _unescape no_codec no_codec (Some "kz_example") = Some "kz_example".
Proof. apply (unescape_plain no_codec no_codec "kz_example"); reflexivity. Defined.

(** [dump_json_opens_first] with a serialiser that always fails. *)
Lemma dump_json_opens_first_witness :
  _dump_json no_codec no_codec no_codec no_codec no_codec no_splitext no_join
    no_dumps unit no_exists no_op no_op no_write
    (Some "out") (Some "maps") (VList [VNone]) tt
  = (tt, Raise TypeError).
Proof.
  apply (dump_json_opens_first no_codec no_codec no_codec no_codec no_codec
           no_splitext no_join no_dumps unit no_exists no_op no_op no_write
           "out" "maps" (VList [VNone]) tt tt tt TypeError);
    (reflexivity || discriminate).
Defined.

(** [main_writes_collection_first] with a server that answers with an
    array holding one record that has no name. *)
Lemma main_writes_collection_first_witness :
  _main opaque_repr server_nameless loads_nameless no_codec no_codec no_codec
    no_codec no_codec no_splitext no_join dumps_constant unit no_exists no_op
    no_op no_write "src/update.py" {| sent := []; disk := tt |}
  = ({| sent := [source_url "MapsWithMappers"]; disk := tt |}, Raise KeyError).
Proof.
  eapply (main_writes_collection_first opaque_repr server_nameless
            loads_nameless no_codec no_codec no_codec no_codec no_codec
            no_splitext no_join dumps_constant unit no_exists no_op no_op
            no_write "src/update.py" {| sent := []; disk := tt |});
    reflexivity.
Defined.
